(** * pyconductor: verification of [ConductorWorker]

    A shallow embedding of [src/pyconductor/ConductorWorker.py]: the Python
    values the worker handles, the remote task client as a record of
    operations over an abstract server state, and the worker's methods
    [__init__], [execute], [poll_and_execute] and [consume] written in a
    small state-and-exception monad that records every external call in a
    trace. *)

From Stdlib Require Import ZArith String List Lia DecimalString.
From Stdlib Require Import Floats.SpecFloat.
From stdpp Require Import base option list gmap strings.

Set Warnings "-register-all".

(** ** Python values *)

(** The data that crosses the worker: JSON-like values and floats.  A
    [dict] is keyed by strings, as the task and result mappings are. *)
Inductive pyval : Type :=
| PNone
| PBool (b : bool)
| PInt (n : Z)
| PFloat (f : spec_float)
| PStr (s : string)
| PList (l : list pyval)
| PDict (d : gmap string pyval).

Abbreviation dict := (gmap string pyval).

(** Exceptions.  [except Exception] catches the first kind only;
    [BaseException] stands for the exceptions that are not instances of
    [Exception] (KeyboardInterrupt, SystemExit, GeneratorExit).  [msg] is
    what [str(err)] gives, a text that [print] can write.

    An exception object comes from outside the worker and need not be
    that well behaved.  [StrRaises] is one whose [str(err)] raises
    [raised] (its [__str__] raises, or returns something that is not a
    str); [PrintRaises] is one whose [str(err)] is [msg], a text that
    standard output cannot take, so that printing it raises [raised].
    [catchable] says whether the object is an instance of [Exception]. *)
Inductive exn : Type :=
| Exception (cls msg : string)
| BaseException (cls msg : string)
| StrRaises (catchable : bool) (cls : string) (raised : exn)
| PrintRaises (catchable : bool) (cls msg : string) (raised : exn).

Definition is_Exception (e : exn) : bool :=
  match e with
  | Exception _ _ => true
  | BaseException _ _ => false
  | StrRaises catchable _ _ => catchable
  | PrintRaises catchable _ _ _ => catchable
  end.

Inductive result (A : Type) : Type :=
| Ok (a : A)
| Raise (e : exn).
Arguments Ok {A} a.
Arguments Raise {A} e.

(** A str value as [str(err)] returns it: its characters, and what
    writing it to standard output raises, if anything. *)
Record pystr : Type := {
  chars : string;
  unwritable : option exn
}.

(** [str(err)] *)
Definition str_exn (e : exn) : result pystr :=
  match e with
  | Exception _ msg | BaseException _ msg =>
      Ok {| chars := msg; unwritable := None |}
  | StrRaises _ _ raised => Raise raised
  | PrintRaises _ _ msg raised =>
      Ok {| chars := msg; unwritable := Some raised |}
  end.

(** ['literal' + s] *)
Definition prepend (literal : string) (s : pystr) : pystr :=
  {| chars := literal +:+ chars s; unwritable := unwritable s |}.

(** The exceptions that line 60 of [execute] prints without raising. *)
Definition printable (e : exn) : Prop :=
  exists msg, str_exn e = Ok {| chars := msg; unwritable := None |}.

(** The text of a printable exception. *)
Definition message (e : exn) : string :=
  match str_exn e with
  | Ok s => chars s
  | Raise _ => ""
  end.

Definition raises {A} (r : result A) : Prop :=
  match r with Ok _ => False | Raise _ => True end.

(** ** Python primitives used by the worker *)

(** Truth value of an object, as [if x] and [x or y] test it. *)
Definition truthy (v : pyval) : bool :=
  match v with
  | PNone => false
  | PBool b => b
  | PInt n => negb (n =? 0)%Z
  | PFloat (S754_zero _) => false
  | PFloat _ => true
  | PStr s => negb (String.eqb s "")
  | PList l => negb (Nat.eqb (length l) 0)
  | PDict d => negb (Nat.eqb (size d) 0)
  end.

(** [a or b] *)
Definition py_or (a b : pyval) : pyval := if truthy a then a else b.

(** [x is None] *)
Definition is_None (v : pyval) : bool :=
  match v with PNone => true | _ => false end.

(** [type(x) is dict] *)
Definition type_is_dict (v : pyval) : bool :=
  match v with PDict _ => true | _ => false end.

(** [key in x], evaluated by the worker only on a [dict]. *)
Definition contains (v : pyval) (key : string) : bool :=
  match v with
  | PDict d => bool_decide (is_Some (d !! key))
  | _ => false
  end.

(** [all(key in resp for key in keys)] *)
Definition all_in (keys : list string) (v : pyval) : bool :=
  forallb (contains v) keys.

Definition type_name (v : pyval) : string :=
  match v with
  | PNone => "NoneType"
  | PBool _ => "bool"
  | PInt _ => "int"
  | PFloat _ => "float"
  | PStr _ => "str"
  | PList _ => "list"
  | PDict _ => "dict"
  end.

(** [x[key]] for a string key: only a [dict] can be subscripted by a
    string; a missing key is a KeyError, any other object a TypeError. *)
Definition getitem (v : pyval) (key : string) : result pyval :=
  match v with
  | PDict d =>
      match d !! key with
      | Some x => Ok x
      | None => Raise (Exception "KeyError" ("'" +:+ key +:+ "'"))
      end
  | PStr _ => Raise (Exception "TypeError" "string indices must be integers")
  | PList _ =>
      Raise (Exception "TypeError" "list indices must be integers or slices, not str")
  | _ =>
      Raise (Exception "TypeError"
               ("'" +:+ type_name v +:+ "' object is not subscriptable"))
  end.

(** binary64, the format of a Python float *)
Definition prec : Z := 53.
Definition emax : Z := 1024.

(** [float(n)] for an int: the nearest double, ties to even; an int that
    rounds out of range is an OverflowError. *)
Definition float_of_int (n : Z) : result spec_float :=
  match binary_normalize prec emax n 0 false with
  | S754_infinity _ =>
      Raise (Exception "OverflowError" "int too large to convert to float")
  | f => Ok f
  end.

(** [int(x)] for a float, also what ['%d' % x] does to it: truncation
    toward zero; infinities and NaN cannot be converted. *)
Definition int_of_float (f : spec_float) : result Z :=
  match f with
  | S754_zero _ => Ok 0%Z
  | S754_finite s m e =>
      let magnitude := Z.shiftl (Zpos m) e in
      Ok (if s then (- magnitude)%Z else magnitude)
  | S754_infinity _ =>
      Raise (Exception "OverflowError" "cannot convert float infinity to integer")
  | S754_nan =>
      Raise (Exception "ValueError" "cannot convert float NaN to integer")
  end.

(** The literal [0.1], the float of [1000] and the float of [1]. *)
Definition float_0_1 : spec_float := S754_finite false 7205759403792794 (-56).
Definition float_1000 : spec_float := binary_normalize prec emax 1000 0 false.
Definition float_1 : spec_float := binary_normalize prec emax 1 0 false.

Section Float.
(** Parsing of a float literal ([float("0.5")]) is the C library's; it is
    taken as given.  [None] is an unparsable string. *)
Variable float_of_string : string -> option spec_float.

(** [float(x)] *)
Definition py_float (v : pyval) : result spec_float :=
  match v with
  | PFloat f => Ok f
  | PInt n => float_of_int n
  | PBool b => float_of_int (Z.b2z b)
  | PStr s =>
      match float_of_string s with
      | Some f => Ok f
      | None =>
          Raise (Exception "ValueError"
                   ("could not convert string to float: '" +:+ s +:+ "'"))
      end
  | _ =>
      Raise (Exception "TypeError"
               ("float() argument must be a string or a number, not '"
                  +:+ type_name v +:+ "'"))
  end.

(** What [float] accepts: a float, a bool, an int in the range of a
    double, or a string that parses as a float. *)
Definition convertible (v : pyval) : Prop :=
  match v with
  | PFloat _ | PBool _ => True
  | PInt n => ~ raises (float_of_int n)
  | PStr s => is_Some (float_of_string s)
  | _ => False
  end.
End Float.

(** ** A state and exception monad *)

(** A computation over a state [S]: it returns or raises, and the state
    it leaves is kept in both cases (an object mutated before a [raise]
    stays mutated). *)
Definition M (S A : Type) : Type := S -> result A * S.

Definition ret {S A} (a : A) : M S A := fun s => (Ok a, s).

Definition raise {S A} (e : exn) : M S A := fun s => (Raise e, s).

Definition bind {S A B} (c : M S A) (k : A -> M S B) : M S B :=
  fun s =>
    match c s with
    | (Ok a, s') => k a s'
    | (Raise e, s') => (Raise e, s')
    end.

(** [try: body  except Exception as err: handler err] *)
Definition try_except_Exception {S A} (body : M S A) (handler : exn -> M S A)
  : M S A :=
  fun s =>
    match body s with
    | (Ok a, s') => (Ok a, s')
    | (Raise e, s') => if is_Exception e then handler e s' else (Raise e, s')
    end.

Definition lift_result {S A} (r : result A) : M S A := fun s => (r, s).

Declare Scope py_scope.
Delimit Scope py_scope with py.
Notation "x <- c1 ;; c2" := (bind c1 (fun x => c2))
  (at level 100, c1 at next level, c2 at level 200, only parsing) : py_scope.
Notation "c1 ;; c2" := (bind c1 (fun _ => c2))
  (at level 100, c2 at level 200, only parsing) : py_scope.

(** Outcome of a [while True] loop run with bounded fuel. *)
Inductive loop_outcome : Type :=
| Exits (r : result unit)
| StillLooping.

(** ** The worker *)

Section Worker.
(** State of everything outside the worker: the server's queues and
    whatever the execution function keeps. *)
Context {Env : Type}.
(** [self.workflowClient] is stored and never used. *)
Context {WorkflowClient : Type}.

(** The task client of [pyconductor.conductor]: three remote calls. *)
Record TaskClient : Type := {
  pollForTask : pyval -> pyval -> pyval -> Env -> result pyval * Env;
  ackTask : pyval -> pyval -> Env -> result pyval * Env;
  updateTask : dict -> Env -> result pyval * Env
}.

Record WFClientMgr_obj : Type := {
  mgr_workflowClient : WorkflowClient;
  mgr_taskClient : TaskClient
}.

Record ConductorWorker : Type := {
  workflowClient : WorkflowClient;
  taskClient : TaskClient;
  thread_count : spec_float;
  polling_interval : spec_float;
  worker_id : pyval
}.

(** An execution function receives the task object, may mutate it, and
    returns or raises: the second component is the task as it leaves it. *)
Definition exec_fn : Type := dict -> Env -> result pyval * dict * Env.

(** What the worker does to the outside, in order. *)
Inductive event : Type :=
| EvExec (task : dict) (r : result pyval) (task' : dict)
| EvPrint (line : string)
| EvUpdate (task : dict) (r : result pyval)
| EvSleep (secs : spec_float) (r : result pyval)
| EvPoll (taskType workerId domain : pyval) (r : result pyval)
| EvAck (taskId workerId : pyval) (r : result pyval)
| EvSpawn (task : dict)
| EvPrintRaises (line : string) (e : exn).

Record world : Type := {
  wself : ConductorWorker;
  wenv : Env;
  wtrace : list event
}.

Definition emit (σ : Env) (ev : event) (w : world) : world :=
  {| wself := wself w; wenv := σ; wtrace := wtrace w ++ [ev] |}.

(** A call to the outside: run it on the environment and log it. *)
Definition extern (call : Env -> result pyval * Env)
    (log : result pyval -> event) : M world pyval :=
  fun w => let '(r, σ) := call (wenv w) in (r, emit σ (log r) w).

Definition get_self : M world ConductorWorker := fun w => (Ok (wself w), w).

(** [print(line)] of a line that standard output can take.  Standard
    output itself is taken to be open: a print fails only on account of
    the text it is given (see [print_str]). *)
Definition print (line : string) : M world unit :=
  fun w => (Ok tt, emit (wenv w) (EvPrint line) w).

(** [print(s)] of a str value: it raises when the text cannot be written. *)
Definition print_str (s : pystr) : M world unit :=
  match unwritable s with
  | None => print (chars s)
  | Some e => fun w => (Raise e, emit (wenv w) (EvPrintRaises (chars s) e) w)
  end.

(** Module-level names of [ConductorWorker.py] and its imports. *)
Variable hostname : string.
Variable float_of_string : string -> option spec_float.
Variable WFClientMgr : pyval -> result WFClientMgr_obj.
Variable time_sleep : spec_float -> Env -> result pyval * Env.

(** *** [__init__] *)

Definition __init__ (server_url thread_count polling_interval worker_id : pyval)
  : result ConductorWorker :=
  match WFClientMgr server_url with
  | Raise e => Raise e
  | Ok wfcMgr =>
      match py_float float_of_string thread_count with
      | Raise e => Raise e
      | Ok tc =>
          match py_float float_of_string polling_interval with
          | Raise e => Raise e
          | Ok pi =>
              Ok {| workflowClient := mgr_workflowClient wfcMgr;
                    taskClient := mgr_taskClient wfcMgr;
                    thread_count := tc;
                    polling_interval := pi;
                    worker_id := py_or worker_id (PStr hostname) |}
          end
      end
  end.

(** *** [execute] *)

(** The frame of one [execute] call: the task object and the world. *)
Definition frame : Type := (dict * world)%type.

Definition in_world {A} (c : M world A) : M frame A :=
  fun fr => let '(r, w) := c (snd fr) in (r, (fst fr, w)).

Definition get_task : M frame dict := fun fr => (Ok (fst fr), fr).

(** [task[key] = v] *)
Definition setitem (key : string) (v : pyval) : M frame unit :=
  fun fr => (Ok tt, (<[key := v]> (fst fr), snd fr)).

(** [exec_function(task)] *)
Definition call_exec (exec_function : exec_fn) : M frame pyval :=
  fun fr =>
    let w := snd fr in
    let '(r, task', σ) := exec_function (fst fr) (wenv w) in
    (r, (task', emit σ (EvExec (fst fr) r task') w)).

(** [self.taskClient.updateTask(task)] *)
Definition call_updateTask : M frame pyval :=
  (task <- get_task ;;
   self <- in_world get_self ;;
   in_world (extern (updateTask (taskClient self) task) (EvUpdate task)))%py.

Definition contract_violation : exn :=
  Exception "Exception"
    "Task execution function MUST return a response as a dict with status, output and logs fields".

(** The try block.  The result may be the task object itself: the three
    copies read keys that the assignments before them do not write, so
    reading them from the result as returned gives the same values. *)
Definition execute_try (exec_function : exec_fn) : M frame unit :=
  (resp <- call_exec exec_function ;;
   (if negb (type_is_dict resp)
       || negb (all_in ["status"; "output"; "logs"] resp)
    then raise contract_violation
    else ret tt) ;;
   status <- lift_result (getitem resp "status") ;;
   setitem "status" status ;;
   output <- lift_result (getitem resp "output") ;;
   setitem "outputData" output ;;
   logs <- lift_result (getitem resp "logs") ;;
   setitem "logs" logs ;;
   call_updateTask ;;
   ret tt)%py.

(** The except clause.  Its first statement, the print, is not guarded:
    when [str(err)] or the print raises, the clause ends there. *)
Definition execute_except (err : exn) : M frame unit :=
  (text <- lift_result (str_exn err) ;;
   in_world (print_str (prepend "Error executing task: " text)) ;;
   setitem "status" (PStr "FAILED") ;;
   call_updateTask ;;
   ret tt)%py.

Definition execute (task : dict) (exec_function : exec_fn) : M world unit :=
  fun w =>
    let '(r, fr) :=
      try_except_Exception (execute_try exec_function) execute_except (task, w)
    in (r, snd fr).

(** *** [poll_and_execute] *)

(** One turn of the [while True] of [poll_and_execute].  Only a dict
    survives [polled['taskId']], so [execute] always receives a dict. *)
Definition poll_and_execute_body (taskType : pyval) (exec_function : exec_fn)
    (domain : pyval) : M world unit :=
  (self <- get_self ;;
   secs <- lift_result (py_float float_of_string (PFloat (polling_interval self))) ;;
   extern (time_sleep secs) (EvSleep secs) ;;
   polled <- extern (pollForTask (taskClient self) taskType (worker_id self) domain)
               (EvPoll taskType (worker_id self) domain) ;;
   if negb (is_None polled) then
     taskId <- lift_result (getitem polled "taskId") ;;
     acked <- extern (ackTask (taskClient self) taskId (worker_id self))
                (EvAck taskId (worker_id self)) ;;
     if truthy acked then
       match polled with
       | PDict task => execute task exec_function
       | _ => ret tt
       end
     else ret tt
   else ret tt)%py.

Fixpoint poll_and_execute (fuel : nat) (taskType : pyval)
    (exec_function : exec_fn) (domain : pyval) (w : world)
  : loop_outcome * world :=
  match fuel with
  | O => (StillLooping, w)
  | S fuel' =>
      match poll_and_execute_body taskType exec_function domain w with
      | (Ok _, w') => poll_and_execute fuel' taskType exec_function domain w'
      | (Raise e, w') => (Exits (Raise e), w')
      end
  end.

(** *** [consume] *)

(** [Thread(target=self.execute, args=(task, exec_function)).start()]:
    the new thread runs [thread_body]; an exception that leaves it ends
    that thread only. *)
Definition thread_body (task : dict) (exec_function : exec_fn) : M world unit :=
  execute task exec_function.

Definition spawn_execute (task : dict) : M world unit :=
  fun w => (Ok tt, emit (wenv w) (EvSpawn task) w).

(** One turn of the [while True] of [consume]; [true] is [break]. *)
Definition consume_body (taskType : pyval) (exec_function : exec_fn)
    (domain : pyval) : M world bool :=
  (self <- get_self ;;
   polled <- extern (pollForTask (taskClient self) taskType (worker_id self) domain)
               (EvPoll taskType (worker_id self) domain) ;;
   if is_None polled then ret true
   else
     taskId <- lift_result (getitem polled "taskId") ;;
     acked <- extern (ackTask (taskClient self) taskId (worker_id self))
                (EvAck taskId (worker_id self)) ;;
     (if truthy acked then
        match polled with
        | PDict task => spawn_execute task
        | _ => ret tt
        end
      else ret tt) ;;
     ret false)%py.

(** [limit] and [check_existing_tasks] are accepted and not used. *)
Fixpoint consume (fuel : nat) (taskType : pyval) (exec_function : exec_fn)
    (domain limit check_existing_tasks : pyval) (w : world)
  : loop_outcome * world :=
  match fuel with
  | O => (StillLooping, w)
  | S fuel' =>
      match consume_body taskType exec_function domain w with
      | (Ok true, w') => (Exits (Ok tt), w')
      | (Ok false, w') =>
          consume fuel' taskType exec_function domain limit
            check_existing_tasks w'
      | (Raise e, w') => (Exits (Raise e), w')
      end
  end.


(** ** Traces *)

(** The events a run added, given the worlds before and after it. *)
Definition events_since (w w' : world) : list event :=
  drop (length (wtrace w)) (wtrace w').

Definition is_update (ev : event) : bool :=
  match ev with EvUpdate _ _ => true | _ => false end.

(** Number of [updateTask] calls in a trace. *)
Definition update_calls (tr : list event) : nat :=
  length (filter (fun ev => is_update ev = true) tr).

Definition execute_events (task : dict) (f : exec_fn) (w : world) : list event :=
  events_since w (snd (execute task f w)).

(** ** [execute] in normal form *)

(** The value of a call used as a statement is dropped. *)
Definition discard (r : result pyval) : result unit :=
  match r with Ok _ => Ok tt | Raise e => Raise e end.

(** The except clause of [execute], run on task [t] in world [w]. *)
Definition report_failed (err : exn) (t : dict) (w : world)
  : result unit * world :=
  match str_exn err with
  | Raise e => (Raise e, w)
  | Ok text =>
      let line := "Error executing task: " +:+ chars text in
      match unwritable text with
      | Some e => (Raise e, emit (wenv w) (EvPrintRaises line e) w)
      | None =>
          let w1 := emit (wenv w) (EvPrint line) w in
          let failed := <["status" := PStr "FAILED"]> t in
          let '(r, σ) := updateTask (taskClient (wself w)) failed (wenv w) in
          (discard r, emit σ (EvUpdate failed r) w1)
      end
  end.

(** The try block after a well-formed result: the three copies and the
    first [updateTask]. *)
Definition report_result (status output logs : pyval) (t : dict) (w : world)
  : result unit * world :=
  let reported :=
    <["logs" := logs]> (<["outputData" := output]> (<["status" := status]> t)) in
  let '(r, σ) := updateTask (taskClient (wself w)) reported (wenv w) in
  let w1 := emit σ (EvUpdate reported r) w in
  match r with
  | Ok _ => (Ok tt, w1)
  | Raise e => if is_Exception e then report_failed e reported w1 else (Raise e, w1)
  end.

Definition after_exec (task : dict) (r : result pyval) (task1 : dict) (σ : Env)
    (w : world) : world :=
  emit σ (EvExec task r task1) w.

(** A result the worker accepts: a dict with the three keys. *)
Definition well_formed (resp : pyval) : Prop :=
  exists d : dict,
    resp = PDict d /\ is_Some (d !! "status") /\ is_Some (d !! "output")
    /\ is_Some (d !! "logs").

(** What the except clause reports: the execution function's exception,
    or the contract violation raised on a malformed result. *)
Definition failure_reason (r : result pyval) : exn :=
  match r with Raise e => e | Ok _ => contract_violation end.

(** An execution has failed when the execution function raised an
    Exception or returned a result the worker does not accept. *)
Definition execution_failed (r : result pyval) : Prop :=
  (exists e, r = Raise e /\ is_Exception e = true)
  \/ (exists resp, r = Ok resp /\ ~ well_formed resp).

(** The runs of the except clause on exception [err] and task [t]:
    outcome, events and final environment. *)
Inductive handler_run (client : TaskClient) (err : exn) (t : dict) (σ : Env)
  : result unit -> list event -> Env -> Prop :=
| handler_str_raises e :
    str_exn err = Raise e ->
    handler_run client err t σ (Raise e) [] σ
| handler_print_raises msg e :
    str_exn err = Ok {| chars := msg; unwritable := Some e |} ->
    handler_run client err t σ (Raise e)
      [EvPrintRaises ("Error executing task: " +:+ msg) e] σ
| handler_reports msg r2 σ2 :
    str_exn err = Ok {| chars := msg; unwritable := None |} ->
    updateTask client (<["status" := PStr "FAILED"]> t) σ = (r2, σ2) ->
    handler_run client err t σ (discard r2)
      [EvPrint ("Error executing task: " +:+ msg);
       EvUpdate (<["status" := PStr "FAILED"]> t) r2] σ2.

(** The runs of [execute]: outcome, events and final environment, by
    what the execution function and [updateTask] answer. *)
Inductive execute_run (task : dict) (f : exec_fn) (w : world)
  : result unit -> list event -> Env -> Prop :=
| run_not_caught e task1 σ1 :
    f task (wenv w) = (Raise e, task1, σ1) ->
    is_Exception e = false ->
    execute_run task f w (Raise e) [EvExec task (Raise e) task1] σ1
| run_failed r task1 σ1 res hevs σ2 :
    f task (wenv w) = (r, task1, σ1) ->
    execution_failed r ->
    handler_run (taskClient (wself w)) (failure_reason r) task1 σ1 res hevs σ2 ->
    execute_run task f w res (EvExec task r task1 :: hevs) σ2
| run_reported (d : dict) task1 σ1 status output logs r1 σ2 :
    f task (wenv w) = (Ok (PDict d), task1, σ1) ->
    d !! "status" = Some status ->
    d !! "output" = Some output ->
    d !! "logs" = Some logs ->
    updateTask (taskClient (wself w))
      (<["logs" := logs]> (<["outputData" := output]> (<["status" := status]> task1)))
      σ1 = (r1, σ2) ->
    (forall e, r1 = Raise e -> is_Exception e = false) ->
    execute_run task f w (discard r1)
      [EvExec task (Ok (PDict d)) task1;
       EvUpdate
         (<["logs" := logs]> (<["outputData" := output]> (<["status" := status]> task1)))
         r1] σ2
| run_reported_twice (d : dict) task1 σ1 status output logs e1 σ2 res hevs σ3 :
    f task (wenv w) = (Ok (PDict d), task1, σ1) ->
    d !! "status" = Some status ->
    d !! "output" = Some output ->
    d !! "logs" = Some logs ->
    updateTask (taskClient (wself w))
      (<["logs" := logs]> (<["outputData" := output]> (<["status" := status]> task1)))
      σ1 = (Raise e1, σ2) ->
    is_Exception e1 = true ->
    handler_run (taskClient (wself w)) e1
      (<["logs" := logs]> (<["outputData" := output]> (<["status" := status]> task1)))
      σ2 res hevs σ3 ->
    execute_run task f w res
      (EvExec task (Ok (PDict d)) task1
       :: EvUpdate
            (<["logs" := logs]> (<["outputData" := output]> (<["status" := status]> task1)))
            (Raise e1)
       :: hevs) σ3.

(** ** The runs of the two loops *)

Definition continue_after (res : result unit) : result bool :=
  match res with Ok _ => Ok false | Raise e => Raise e end.

(** One turn of [poll_and_execute] by worker [wid]: whether the loop
    breaks ([Ok true], never here), goes on or raises, and the events. *)
Inductive poll_and_execute_turn (wid : pyval) (f : exec_fn)
  : result bool -> list event -> Prop :=
| pae_sleep_raises secs e :
    poll_and_execute_turn wid f (Raise e) [EvSleep secs (Raise e)]
| pae_poll_raises secs v taskType domain e :
    poll_and_execute_turn wid f (Raise e)
      [EvSleep secs (Ok v); EvPoll taskType wid domain (Raise e)]
| pae_no_task secs v taskType domain :
    poll_and_execute_turn wid f (Ok false)
      [EvSleep secs (Ok v); EvPoll taskType wid domain (Ok PNone)]
| pae_bad_task secs v taskType domain polled e :
    polled <> PNone ->
    getitem polled "taskId" = Raise e ->
    poll_and_execute_turn wid f (Raise e)
      [EvSleep secs (Ok v); EvPoll taskType wid domain (Ok polled)]
| pae_ack_raises secs v taskType domain (d : dict) taskId e :
    d !! "taskId" = Some taskId ->
    poll_and_execute_turn wid f (Raise e)
      [EvSleep secs (Ok v); EvPoll taskType wid domain (Ok (PDict d));
       EvAck taskId wid (Raise e)]
| pae_not_acked secs v taskType domain (d : dict) taskId acked :
    d !! "taskId" = Some taskId ->
    truthy acked = false ->
    poll_and_execute_turn wid f (Ok false)
      [EvSleep secs (Ok v); EvPoll taskType wid domain (Ok (PDict d));
       EvAck taskId wid (Ok acked)]
| pae_executed secs v taskType domain (d : dict) taskId acked w res evs σ' :
    d !! "taskId" = Some taskId ->
    truthy acked = true ->
    execute_run d f w res evs σ' ->
    poll_and_execute_turn wid f (continue_after res)
      ([EvSleep secs (Ok v); EvPoll taskType wid domain (Ok (PDict d));
        EvAck taskId wid (Ok acked)] ++ evs).

(** One turn of [consume]. *)
Inductive consume_turn (wid : pyval) : result bool -> list event -> Prop :=
| con_poll_raises taskType domain e :
    consume_turn wid (Raise e) [EvPoll taskType wid domain (Raise e)]
| con_no_task taskType domain :
    consume_turn wid (Ok true) [EvPoll taskType wid domain (Ok PNone)]
| con_bad_task taskType domain polled e :
    polled <> PNone ->
    getitem polled "taskId" = Raise e ->
    consume_turn wid (Raise e) [EvPoll taskType wid domain (Ok polled)]
| con_ack_raises taskType domain (d : dict) taskId e :
    d !! "taskId" = Some taskId ->
    consume_turn wid (Raise e)
      [EvPoll taskType wid domain (Ok (PDict d)); EvAck taskId wid (Raise e)]
| con_not_acked taskType domain (d : dict) taskId acked :
    d !! "taskId" = Some taskId ->
    truthy acked = false ->
    consume_turn wid (Ok false)
      [EvPoll taskType wid domain (Ok (PDict d)); EvAck taskId wid (Ok acked)]
| con_spawned taskType domain (d : dict) taskId acked :
    d !! "taskId" = Some taskId ->
    truthy acked = true ->
    consume_turn wid (Ok false)
      [EvPoll taskType wid domain (Ok (PDict d)); EvAck taskId wid (Ok acked);
       EvSpawn d].

(** A [while True] loop: turns until one raises or breaks, or until the
    fuel is spent. *)
Inductive loop_run (turn : result bool -> list event -> Prop)
  : nat -> loop_outcome -> list event -> Prop :=
| loop_no_fuel : loop_run turn 0 StillLooping []
| loop_raise fuel e evs :
    turn (Raise e) evs -> loop_run turn (S fuel) (Exits (Raise e)) evs
| loop_break fuel evs :
    turn (Ok true) evs -> loop_run turn (S fuel) (Exits (Ok tt)) evs
| loop_continue fuel evs out evs' :
    turn (Ok false) evs ->
    loop_run turn fuel out evs' ->
    loop_run turn (S fuel) out (evs ++ evs').

(** ** Properties of traces *)

(** The events of the except clause and of the reports. *)
Definition reporting (ev : event) : Prop :=
  match ev with
  | EvPrint _ | EvUpdate _ _ => True
  | _ => False
  end.

(** The events [execute] makes after it has called the execution
    function: reports, and prints that returned or raised. *)
Definition inside_execute (ev : event) : Prop :=
  match ev with
  | EvPrint _ | EvUpdate _ _ | EvPrintRaises _ _ => True
  | _ => False
  end.

(** Nothing follows, or a new turn of a loop does: a sleep or a poll. *)
Definition starts_turn (evs : list event) : Prop :=
  match evs with
  | [] => True
  | EvSleep _ _ :: _ | EvPoll _ _ _ _ :: _ => True
  | _ => False
  end.

(** A task is executed (here, or in a thread started for it) only right
    after worker [wid] polled it and acknowledged it with a truthy
    answer; [updateTask] is called only within such an execution; and
    after a poll that found no task, or a falsy acknowledgment, the next
    thing that happens is a new turn. *)
Definition acked_first (wid : pyval) (evs : list event) : Prop :=
  forall pre ev post, evs = pre ++ ev :: post ->
    match ev with
    | EvExec task _ _ | EvSpawn task =>
        exists pre' taskType domain taskId acked,
          pre = pre' ++ [EvPoll taskType wid domain (Ok (PDict task));
                         EvAck taskId wid (Ok acked)]
          /\ task !! "taskId" = Some taskId
          /\ truthy acked = true
    | EvUpdate _ _ =>
        exists pre' task r task1 mid,
          pre = pre' ++ EvExec task r task1 :: mid /\ Forall reporting mid
    | EvPoll _ _ _ (Ok PNone) => starts_turn post
    | EvAck _ _ (Ok acked) => truthy acked = false -> starts_turn post
    | _ => True
    end.

(** The event before is the call of the execution function: what follows
    is the first [updateTask] of an execution, the one inside the try. *)
Definition follows_call (pre : list event) : Prop :=
  match last pre with
  | Some (EvExec _ _ _) => True
  | _ => False
  end.

(** An exception raised by [pollForTask] or [ackTask] ends the run, which
    raises it ([raised e]).  For one raised by [updateTask] there are two
    cases.  If it is an [Exception] raised by the [updateTask] that
    directly follows the execution function, it is caught: when it can
    be printed, it is printed and the FAILED report follows.  In every
    other case it ends the run, which raises it. *)
Definition failures_propagate (raised : exn -> Prop) (evs : list event) : Prop :=
  forall pre ev post, evs = pre ++ ev :: post ->
    match ev with
    | EvPoll _ _ _ (Raise e) | EvAck _ _ (Raise e) => post = [] /\ raised e
    | EvUpdate t (Raise e) =>
        (follows_call pre -> is_Exception e = true -> printable e ->
         exists r2 post',
           post = EvPrint ("Error executing task: " +:+ message e)
                  :: EvUpdate (<["status" := PStr "FAILED"]> t) r2
                  :: post')
        /\ (~ (follows_call pre /\ is_Exception e = true) ->
            post = [] /\ raised e)
    | _ => True
    end.

Definition is_poll (ev : event) : bool :=
  match ev with EvPoll _ _ _ _ => true | _ => false end.

(** Number of [pollForTask] calls in a trace. *)
Definition poll_calls (tr : list event) : nat :=
  length (filter (fun ev => is_poll ev = true) tr).

(** ** More properties of traces *)

(** Events after which a run cannot go on: [fatal ev e] says that [ev]
    carries the exception [e]; the run stops there and raises [e]. *)
Definition stops_at (fatal : event -> exn -> Prop) (raised : exn -> Prop)
    (evs : list event) : Prop :=
  forall pre ev post e,
    evs = pre ++ ev :: post -> fatal ev e -> post = [] /\ raised e.

(** A poll that returned something other than None from which
    ['taskId'] cannot be read: not a dict, or a dict without the key. *)
Definition bad_task (ev : event) (e : exn) : Prop :=
  match ev with
  | EvPoll _ _ _ (Ok polled) =>
      polled <> PNone /\ getitem polled "taskId" = Raise e
  | _ => False
  end.

(** A [time.sleep] that raised. *)
Definition failed_sleep (ev : event) (e : exn) : Prop :=
  match ev with
  | EvSleep _ (Raise e') => e' = e
  | _ => False
  end.

(** Every poll comes right after a sleep of [secs] seconds that returned. *)
Definition sleeps_before_polls (secs : spec_float) (evs : list event) : Prop :=
  forall pre taskType wk domain r post,
    evs = pre ++ EvPoll taskType wk domain r :: post ->
    exists pre' v, pre = pre' ++ [EvSleep secs (Ok v)].

(** The events of the thread that runs [consume]. *)
Definition consume_event (ev : event) : Prop :=
  match ev with
  | EvPoll _ _ _ _ | EvAck _ _ _ | EvSpawn _ => True
  | _ => False
  end.

Definition is_spawn (ev : event) : bool :=
  match ev with EvSpawn _ => true | _ => false end.

Definition is_truthy_ack (ev : event) : bool :=
  match ev with EvAck _ _ (Ok acked) => truthy acked | _ => false end.

Definition count (test : event -> bool) (tr : list event) : nat :=
  length (filter (fun ev => test ev = true) tr).

(** ** [start], [exc] and [main] *)

(** Formatting is the interpreter's: [str(x)] as ['%s'] prints it, ['%f']
    of a float and ['%d'] of an int. *)
Variable str_of : pyval -> string.
Variable format_f : spec_float -> string.
Variable format_d : Z -> string.
(** The text of the TypeError for a call of [exc] with the wrong number of
    arguments, by the number given. *)
Variable arity_message : nat -> string.

(** What [start] does, in order: events of the calling thread (a print, a
    sleep), and threads started on [poll_and_execute] with their
    arguments and daemon flag. *)
Inductive start_event : Type :=
| StEvent (ev : event)
| StThread (daemon : bool) (taskType : pyval) (exec_function : exec_fn)
    (domain : pyval).

Definition is_thread (ev : start_event) : bool :=
  match ev with StThread _ _ _ _ => true | _ => false end.

(** Number of threads started in a log. *)
Definition threads_started (log : list start_event) : nat :=
  length (filter (fun ev => is_thread ev = true) log).

(** A [time.sleep(1)] of the calling thread. *)
Definition one_second_sleep (ev : start_event) : Prop :=
  exists r, ev = StEvent (EvSleep float_1 r).

(** A [time.sleep(1)] of the calling thread that returned. *)
Definition sleep_returned (ev : start_event) : Prop :=
  exists v, ev = StEvent (EvSleep float_1 (Ok v)).

(** The process that hosts the worker. *)
Record process : Type := {
  pself : ConductorWorker;
  penv : Env;
  plog : list start_event
}.

Definition record (σ : Env) (ev : start_event) (p : process) : process :=
  {| pself := pself p; penv := σ; plog := plog p ++ [ev] |}.

(** The line [start] prints.  ['%d'] converts the float [thread_count] to
    an int, which fails for an infinity or a NaN. *)
Definition start_message (taskType : pyval) (self : ConductorWorker)
  : result string :=
  let ms := SFmul prec emax (polling_interval self) float_1000 in
  match int_of_float (thread_count self) with
  | Raise e => Raise e
  | Ok n =>
      Ok ("Polling for task " +:+ str_of taskType +:+ " at a " +:+ format_f ms
          +:+ " ms interval with " +:+ format_d n
          +:+ " threads for task execution, with worker id as "
          +:+ str_of (worker_id self))
  end.

(** [for x in range(0, n)]: a daemon thread on [poll_and_execute] each turn. *)
Fixpoint start_threads (n : nat) (taskType : pyval) (exec_function : exec_fn)
    (domain : pyval) (p : process) : process :=
  match n with
  | O => p
  | S n' =>
      start_threads n' taskType exec_function domain
        (record (penv p) (StThread true taskType exec_function domain) p)
  end.

(** [while 1: time.sleep(1)] *)
Fixpoint wait_forever (fuel : nat) (p : process) : loop_outcome * process :=
  match fuel with
  | O => (StillLooping, p)
  | S fuel' =>
      let '(r, σ) := time_sleep float_1 (penv p) in
      let p' := record σ (StEvent (EvSleep float_1 r)) p in
      match r with
      | Ok _ => wait_forever fuel' p'
      | Raise e => (Exits (Raise e), p')
      end
  end.

Definition start (taskType : pyval) (exec_function : exec_fn) (wait : pyval)
    (domain : pyval) (fuel : nat) (p : process) : loop_outcome * process :=
  match start_message taskType (pself p) with
  | Raise e => (Exits (Raise e), p)
  | Ok line =>
      let p1 := record (penv p) (StEvent (EvPrint line)) p in
      match int_of_float (thread_count (pself p)) with
      | Raise e => (Exits (Raise e), p1)
      | Ok n =>
          let p2 := start_threads (Z.to_nat n) taskType exec_function domain p1 in
          if truthy wait then wait_forever fuel p2 else (Exits (Ok tt), p2)
      end
  end.

(** The parameters of [exc]. *)
Definition exc_parameters : list string :=
  ["taskType"; "inputData"; "startTime"; "retryCount"; "status";
   "callbackAfterSeconds"; "pollCount"].

(** [exc], called with positional arguments: what it prints and its
    outcome.  All seven parameters are required. *)
Definition exc (args : list pyval) : list string * result pyval :=
  if Nat.eqb (length args) (length exc_parameters) then
    (["Executing the function"],
     Ok (PDict (<["status" := PStr "COMPLETED"]> {[ "output" := PDict ∅ ]})))
  else ([], Raise (Exception "TypeError" (arity_message (length args)))).

(** [exc] as the worker calls it: [exec_function(task)]. *)
Definition exc_function : exec_fn :=
  fun task σ => (snd (exc [PDict task]), task, σ).

(** [sys.argv[i]] *)
Definition argv_item (argv : list pyval) (i : nat) : result pyval :=
  match argv !! i with
  | Some v => Ok v
  | None => Raise (Exception "IndexError" "list index out of range")
  end.

(** [main], run with [sys.argv = argv]: its outcome, the environment and
    what the process did. *)
Definition main (argv : list pyval) (fuel : nat) (σ : Env)
  : loop_outcome * Env * list start_event :=
  match __init__ (PStr "http://localhost:8080/api") (PInt 5) (PFloat float_0_1)
          PNone with
  | Raise e => (Exits (Raise e), σ, [])
  | Ok cc =>
      let p := {| pself := cc; penv := σ; plog := [] |} in
      match argv_item argv 1 with
      | Raise e => (Exits (Raise e), σ, [])
      | Ok first =>
          match start first exc_function (PBool false) PNone fuel p with
          | (Exits (Ok _), p1) =>
              match argv_item argv 2 with
              | Raise e => (Exits (Raise e), penv p1, plog p1)
              | Ok second =>
                  let '(out, p2) :=
                    start second exc_function (PBool true) PNone fuel p1 in
                  (out, penv p2, plog p2)
              end
          | (out, p1) => (out, penv p1, plog p1)
          end
      end
  end.

End Worker.

(** ** A scripted server, for concrete runs *)

Module Scenario.

(** The server answers each remote call with the next scripted outcome;
    when a script runs out, polls find no task, acknowledgments succeed
    and updates return. *)
Record script : Type := {
  polls : list (result pyval);
  acks : list (result pyval);
  updates : list (result pyval)
}.

Definition next (l : list (result pyval)) (default : pyval)
  : result pyval * list (result pyval) :=
  match l with
  | [] => (Ok default, [])
  | r :: l' => (r, l')
  end.

Definition client : @TaskClient script := {|
  pollForTask := fun _ _ _ σ =>
    let '(r, l) := next (polls σ) PNone in
    (r, {| polls := l; acks := acks σ; updates := updates σ |});
  ackTask := fun _ _ σ =>
    let '(r, l) := next (acks σ) (PBool true) in
    (r, {| polls := polls σ; acks := l; updates := updates σ |});
  updateTask := fun _ σ =>
    let '(r, l) := next (updates σ) PNone in
    (r, {| polls := polls σ; acks := acks σ; updates := l |})
|}.

Abbreviation Worker := (@ConductorWorker script unit).
Abbreviation World := (@world script unit).

(** An execution function with a fixed outcome that leaves the task alone. *)
Definition returning (r : result pyval) : @exec_fn script :=
  fun task σ => (r, task, σ).

Definition no_float_literal : string -> option spec_float := fun _ => None.

Definition mgr (server_url : pyval) : result (@WFClientMgr_obj script unit) :=
  Ok {| mgr_workflowClient := tt; mgr_taskClient := client |}.

Definition sleep_ok (secs : spec_float) (σ : script) : result pyval * script :=
  (Ok PNone, σ).

Definition host : string := "worker-host".

Definition self0 : Worker := {|
  workflowClient := tt;
  taskClient := client;
  thread_count := S754_finite false 4503599627370496 (-52);
  polling_interval := S754_finite false 4503599627370496 (-52);
  worker_id := PStr host
|}.

Definition start (σ : script) : World :=
  {| wself := self0; wenv := σ; wtrace := [] |}.

Definition quiet : script := {| polls := []; acks := []; updates := [] |}.

Definition boom : exn := Exception "RuntimeError" "boom".

Definition t1 : dict := {[ "taskId" := PStr "t1" ]}.

Definition completed : dict :=
  <["status" := PStr "COMPLETED"]>
    (<["output" := PDict {[ "x" := PInt 1 ]}]> {[ "logs" := PList [] ]}).

Definition in_progress : dict :=
  <["status" := PStr "IN_PROGRESS"]>
    (<["output" := PDict ∅]> {[ "logs" := PList [] ]}).

Definition only_output : dict := {[ "output" := PDict ∅ ]}.

(** {'taskId':'t1','status':'COMPLETED','outputData':{'x':1},'logs':[]} *)
Definition t1_completed : dict :=
  <["taskId" := PStr "t1"]>
    (<["status" := PStr "COMPLETED"]>
       (<["outputData" := PDict {[ "x" := PInt 1 ]}]> {[ "logs" := PList [] ]})).

(** {'taskId':'t1','status':'FAILED'} *)
Definition t1_failed : dict :=
  <["taskId" := PStr "t1"]> {[ "status" := PStr "FAILED" ]}.

(** The first [updateTask] fails, later ones succeed. *)
Definition update_fails_once : script :=
  {| polls := []; acks := []; updates := [Raise boom] |}.


Definition url : pyval := PStr "http://localhost:8080/api".

(** 0.1 as a double *)
Definition tenth : spec_float := S754_finite false 7205759403792794 (-56).

(** Stand-ins for the interpreter's formatting. *)
Definition show (v : pyval) : string :=
  match v with
  | PStr s => s
  | PNone => "None"
  | _ => "<object>"
  end.

Definition show_f (x : spec_float) : string := "<float>".

Definition show_d (n : Z) : string := NilZero.string_of_int (Z.to_int n).

Definition arity (given : nat) : string :=
  "exc() missing required positional arguments".

Definition keyboard_interrupt : exn := BaseException "KeyboardInterrupt" "".

(** The first [updateTask] is interrupted from the keyboard. *)
Definition update_interrupted : script :=
  {| polls := []; acks := []; updates := [Raise keyboard_interrupt] |}.

(** An Exception whose [__str__] returns None: [str] of it raises. *)
Definition str_type_error : exn :=
  Exception "TypeError" "__str__ returned non-string (type NoneType)".

Definition unprintable : exn := StrRaises true "JobError" str_type_error.

(** One task is queued and every remote call succeeds. *)
Definition one_task : script :=
  {| polls := [Ok (PDict t1)]; acks := []; updates := [] |}.

(** The worker [main] constructs. *)
Definition main_self : Worker := {|
  workflowClient := tt;
  taskClient := client;
  thread_count := S754_finite false 5629499534213120 (-50);
  polling_interval := float_0_1;
  worker_id := PStr host
|}.

Definition host_process (self : Worker) : @process script unit :=
  {| pself := self; penv := quiet; plog := [] |}.

End Scenario.

(** ** Facts *)

Example float_of_int_5 :
  float_of_int 5 = Ok (S754_finite false 5629499534213120 (-50)).
Proof. reflexivity. Qed.

Example float_of_int_huge : raises (float_of_int (2 ^ 1024)).
Proof. vm_compute. exact I. Qed.

Section WorkerFacts.
Context {Env WorkflowClient : Type}.
Implicit Types (w : @world Env WorkflowClient) (f : @exec_fn Env).
Implicit Types (task t : dict) (σ : Env) (r : result pyval).

Lemma events_since_app (w w' : @world Env WorkflowClient) (evs : list event) :
  wtrace w' = wtrace w ++ evs -> events_since w w' = evs.
Proof.
  intros H. unfold events_since. rewrite H. apply drop_app_length.
Qed.

Lemma execute_except_eq err t w :
  (let '(r, fr) := execute_except err (t, w) in (r, snd fr))
  = report_failed err t w.
Proof.
  unfold execute_except, report_failed, call_updateTask, bind, in_world,
    print_str, print, setitem, get_task, get_self, extern, ret, lift_result,
    prepend.
  destruct (str_exn err) as [[msg [e|]]|e]; cbn [fst snd chars unwritable];
    try reflexivity.
  cbn [emit wself wenv wtrace].
  destruct (updateTask _ _ _) as [[v|e] σ]; reflexivity.
Qed.

Lemma execute_raise task f w e task1 σ1 :
  f task (wenv w) = (Raise e, task1, σ1) ->
  execute task f w =
    if is_Exception e
    then report_failed e task1 (after_exec task (Raise e) task1 σ1 w)
    else (Raise e, after_exec task (Raise e) task1 σ1 w).
Proof.
  intros Hf.
  unfold execute, try_except_Exception, execute_try, call_exec, bind; simpl.
  rewrite Hf; simpl.
  destruct (is_Exception e); [|reflexivity].
  apply execute_except_eq.
Qed.

Lemma validation_passes (resp : pyval) :
  negb (type_is_dict resp) || negb (all_in ["status"; "output"; "logs"] resp)
    = false
  <-> well_formed resp.
Proof.
  unfold well_formed. destruct resp as [| | | | | |d]; simpl;
    try (split; [discriminate | intros (d' & Hd & _); discriminate]).
  rewrite negb_false_iff, !andb_true_iff, !bool_decide_eq_true.
  split.
  - intros (Hs & Ho & Hl & _). exists d. auto.
  - intros (d' & Hd & Hs & Ho & Hl). injection Hd as ->. auto.
Qed.

Lemma execute_malformed task f w resp task1 σ1 :
  f task (wenv w) = (Ok resp, task1, σ1) ->
  ~ well_formed resp ->
  execute task f w =
    report_failed contract_violation task1 (after_exec task (Ok resp) task1 σ1 w).
Proof.
  intros Hf Hbad.
  assert (Hchk : negb (type_is_dict resp)
                 || negb (all_in ["status"; "output"; "logs"] resp) = true).
  { apply not_false_iff_true. intros H. apply Hbad, validation_passes, H. }
  unfold execute, try_except_Exception, execute_try, call_exec, bind.
  cbn [fst snd]. rewrite Hf. cbn [fst snd]. rewrite Hchk.
  unfold raise. cbn [is_Exception contract_violation].
  apply execute_except_eq.
Qed.

Lemma execute_well_formed task f w (d : dict) task1 σ1 status output logs :
  f task (wenv w) = (Ok (PDict d), task1, σ1) ->
  d !! "status" = Some status ->
  d !! "output" = Some output ->
  d !! "logs" = Some logs ->
  execute task f w =
    report_result status output logs task1
      (after_exec task (Ok (PDict d)) task1 σ1 w).
Proof.
  intros Hf Hs Ho Hl.
  assert (Hwf : well_formed (PDict d)).
  { exists d. rewrite Hs, Ho, Hl. eauto. }
  apply validation_passes in Hwf.
  unfold execute, try_except_Exception, execute_try, call_exec, bind.
  cbn [fst snd]. rewrite Hf. cbn [fst snd]. rewrite Hwf.
  unfold ret, lift_result, getitem. rewrite Hs, Ho, Hl.
  unfold setitem, call_updateTask, bind, get_task, in_world, get_self, extern.
  cbn [fst snd wself wenv emit after_exec].
  unfold report_result. cbn [fst snd wself wenv emit after_exec].
  destruct (updateTask _ _ _) as [[v|e] σ2]; [reflexivity|].
  destruct (is_Exception e); [|reflexivity].
  apply execute_except_eq.
Qed.

Lemma printable_message (e : exn) :
  printable e -> str_exn e = Ok {| chars := message e; unwritable := None |}.
Proof. intros [msg H]. unfold message. rewrite H. reflexivity. Qed.

(** Every run of the except clause is one of [handler_run]. *)
Lemma report_failed_runs err t w :
  exists res hevs σ',
    report_failed err t w =
      (res, {| wself := wself w; wenv := σ'; wtrace := wtrace w ++ hevs |})
    /\ handler_run (taskClient (wself w)) err t (wenv w) res hevs σ'.
Proof.
  unfold report_failed.
  destruct (str_exn err) as [[msg [e|]]|e] eqn:Hstr; cbn [chars unwritable].
  - do 3 eexists. split; [reflexivity|]. apply handler_print_raises. exact Hstr.
  - destruct (updateTask (taskClient (wself w))
                (<["status" := PStr "FAILED"]> t) (wenv w)) as [r2 σ2] eqn:Hu.
    do 3 eexists. split.
    + unfold emit; cbn [wself wenv wtrace]. rewrite <- app_assoc. reflexivity.
    + eapply handler_reports; eassumption.
  - exists (Raise e), [], (wenv w). split.
    + rewrite app_nil_r. destruct w; reflexivity.
    + apply handler_str_raises. exact Hstr.
Qed.

Lemma report_failed_run err t w r2 σ2 :
  printable err ->
  updateTask (taskClient (wself w)) (<["status" := PStr "FAILED"]> t) (wenv w)
    = (r2, σ2) ->
  report_failed err t w =
    (discard r2,
     {| wself := wself w; wenv := σ2;
        wtrace := wtrace w ++
          [EvPrint ("Error executing task: " +:+ message err);
           EvUpdate (<["status" := PStr "FAILED"]> t) r2] |}).
Proof.
  intros Hp Hu. unfold report_failed. rewrite (printable_message _ Hp).
  cbn [chars unwritable]. rewrite Hu. unfold emit; simpl.
  rewrite <- app_assoc. reflexivity.
Qed.

Lemma execute_failed task f w r task1 σ1 :
  f task (wenv w) = (r, task1, σ1) ->
  execution_failed r ->
  execute task f w =
    report_failed (failure_reason r) task1 (after_exec task r task1 σ1 w).
Proof.
  intros Hf [(e & -> & He) | (resp & -> & Hbad)].
  - rewrite (execute_raise _ _ _ _ _ _ Hf), He. reflexivity.
  - apply execute_malformed; assumption.
Qed.

(** How a failed execution runs when its exception can be printed: the
    call, the printed error, one report. *)
Lemma execute_failed_run task f w r task1 σ1 r2 σ2 :
  f task (wenv w) = (r, task1, σ1) ->
  execution_failed r ->
  printable (failure_reason r) ->
  updateTask (taskClient (wself w)) (<["status" := PStr "FAILED"]> task1) σ1
    = (r2, σ2) ->
  execute task f w =
    (discard r2,
     {| wself := wself w; wenv := σ2;
        wtrace := wtrace w ++
          [EvExec task r task1;
           EvPrint ("Error executing task: " +:+ message (failure_reason r));
           EvUpdate (<["status" := PStr "FAILED"]> task1) r2] |}).
Proof.
  intros Hf Hfail Hp Hu.
  rewrite (execute_failed _ _ _ _ _ _ Hf Hfail).
  rewrite (report_failed_run _ _ _ r2 σ2 Hp) by exact Hu.
  unfold after_exec, emit; cbn [wtrace wself wenv].
  rewrite <- app_assoc. reflexivity.
Qed.

(** How a well-formed result runs up to the first [updateTask]. *)
Lemma execute_reported_run task f w (d : dict) task1 σ1 status output logs r1 σ2 :
  f task (wenv w) = (Ok (PDict d), task1, σ1) ->
  d !! "status" = Some status ->
  d !! "output" = Some output ->
  d !! "logs" = Some logs ->
  let reported :=
    <["logs" := logs]> (<["outputData" := output]> (<["status" := status]> task1)) in
  updateTask (taskClient (wself w)) reported σ1 = (r1, σ2) ->
  let w2 := {| wself := wself w; wenv := σ2;
               wtrace := wtrace w ++
                 [EvExec task (Ok (PDict d)) task1; EvUpdate reported r1] |} in
  execute task f w =
    match r1 with
    | Ok _ => (Ok tt, w2)
    | Raise e => if is_Exception e then report_failed e reported w2 else (Raise e, w2)
    end.
Proof.
  intros Hf Hs Ho Hl reported Hu w2.
  rewrite (execute_well_formed _ _ _ _ _ _ _ _ _ Hf Hs Ho Hl).
  unfold report_result, after_exec. cbn [emit wself wenv wtrace].
  fold reported. rewrite Hu.
  unfold emit; cbn [wself wenv wtrace]. rewrite <- app_assoc. reflexivity.
Qed.

Lemma reported_fields (t : dict) (status output logs : pyval) :
  let reported :=
    <["logs" := logs]> (<["outputData" := output]> (<["status" := status]> t)) in
  reported !! "status" = Some status
  /\ reported !! "outputData" = Some output
  /\ reported !! "logs" = Some logs.
Proof.
  cbv zeta. repeat split.
  - rewrite !lookup_insert_ne by discriminate. apply lookup_insert_eq.
  - rewrite lookup_insert_ne by discriminate. apply lookup_insert_eq.
  - apply lookup_insert_eq.
Qed.

(** C1: when the execution function returns a dict holding 'status',
    'output' and 'logs', [execute] copies them into the task's 'status',
    'outputData' and 'logs' (every other field is the task's own, as the
    execution function left it) and then calls [updateTask] with that
    task: it is the event right after the call to the execution
    function; when that [updateTask] returns, nothing else happens and
    [execute] returns. *)
Theorem execute_copies_result_then_updates
    task f w (d : dict) task1 σ1 status output logs r1 σ2 :
  f task (wenv w) = (Ok (PDict d), task1, σ1) ->
  d !! "status" = Some status ->
  d !! "output" = Some output ->
  d !! "logs" = Some logs ->
  let reported :=
    <["logs" := logs]> (<["outputData" := output]> (<["status" := status]> task1)) in
  updateTask (taskClient (wself w)) reported σ1 = (r1, σ2) ->
  (reported !! "status" = Some status
   /\ reported !! "outputData" = Some output
   /\ reported !! "logs" = Some logs
   /\ forall k, k ≠ "status" -> k ≠ "outputData" -> k ≠ "logs" ->
        reported !! k = task1 !! k)
  /\ exists rest,
       execute_events task f w =
         EvExec task (Ok (PDict d)) task1 :: EvUpdate reported r1 :: rest
       /\ (forall v, r1 = Ok v ->
             rest = [] /\ fst (execute task f w) = Ok tt).
Proof.
  intros Hf Hs Ho Hl reported Hu.
  split.
  { destruct (reported_fields task1 status output logs) as (H1 & H2 & H3).
    repeat split; try assumption.
    intros k K1 K2 K3. subst reported.
    rewrite !lookup_insert_ne by congruence. reflexivity. }
  unfold execute_events.
  rewrite (execute_reported_run _ _ _ _ _ _ _ _ _ r1 σ2 Hf Hs Ho Hl Hu).
  fold reported.
  destruct r1 as [v|e].
  - exists []. split.
    + apply events_since_app. reflexivity.
    + intros _ _. split; reflexivity.
  - destruct (is_Exception e).
    + match goal with |- context [report_failed e reported ?w2] =>
        destruct (report_failed_runs e reported w2)
          as (res & hevs & σ' & -> & _) end.
      exists hevs. split.
      * apply events_since_app. cbn [snd wtrace].
        rewrite <- app_assoc. reflexivity.
      * intros v Hv. discriminate.
    + exists []. split.
      * apply events_since_app. reflexivity.
      * intros v Hv. discriminate.
Qed.

(** C2, amended: when the execution function raises an Exception that
    can be printed, or returns anything that is not a dict holding all
    of 'status', 'output' and 'logs', [execute] prints the error, sets
    the task's 'status' to 'FAILED' and calls [updateTask] with the
    task: these are the only events after the call, so the task is
    reported once, as FAILED. *)
Theorem execute_failure_reports_FAILED task f w r task1 σ1 r2 σ2 :
  f task (wenv w) = (r, task1, σ1) ->
  (exists e, r = Raise e /\ is_Exception e = true /\ printable e)
    \/ (exists resp, r = Ok resp /\ ~ well_formed resp) ->
  let failed := <["status" := PStr "FAILED"]> task1 in
  updateTask (taskClient (wself w)) failed σ1 = (r2, σ2) ->
  execute_events task f w =
    [EvExec task r task1;
     EvPrint ("Error executing task: " +:+ message (failure_reason r));
     EvUpdate failed r2]
  /\ failed !! "status" = Some (PStr "FAILED")
  /\ update_calls (execute_events task f w) = 1
  /\ fst (execute task f w) = discard r2.
Proof.
  intros Hf Hfail failed Hu.
  assert (Hfailed : execution_failed r).
  { destruct Hfail as [(e & -> & He & _)|(resp & -> & Hbad)];
      [left|right]; eauto. }
  assert (Hp : printable (failure_reason r)).
  { destruct Hfail as [(e & -> & _ & Hp)|(resp & -> & _)]; [exact Hp|].
    eexists. reflexivity. }
  unfold execute_events.
  rewrite (execute_failed_run _ _ _ _ _ _ r2 σ2 Hf Hfailed Hp Hu).
  fold failed. cbn [fst snd].
  assert (Hev : events_since w
            {| wself := wself w; wenv := σ2;
               wtrace := wtrace w ++
                 [EvExec task r task1;
                  EvPrint ("Error executing task: "
                           +:+ message (failure_reason r));
                  EvUpdate failed r2] |} =
            [EvExec task r task1;
             EvPrint ("Error executing task: " +:+ message (failure_reason r));
             EvUpdate failed r2]).
  { apply events_since_app. reflexivity. }
  rewrite Hev. repeat split.
  apply lookup_insert_eq.
Qed.

(** C9, amended: when the result is well formed and the first
    [updateTask] raises an Exception that can be printed, [execute]
    catches it, prints it, overwrites 'status' with 'FAILED' (leaving
    'outputData' and 'logs' as copied from the result), calls
    [updateTask] a second time with that task, and raises only what the
    second call raises. *)
Theorem execute_update_failure_is_reported_again
    task f w (d : dict) task1 σ1 status output logs e1 σ2 r2 σ3 :
  f task (wenv w) = (Ok (PDict d), task1, σ1) ->
  d !! "status" = Some status ->
  d !! "output" = Some output ->
  d !! "logs" = Some logs ->
  let reported :=
    <["logs" := logs]> (<["outputData" := output]> (<["status" := status]> task1)) in
  let failed := <["status" := PStr "FAILED"]> reported in
  updateTask (taskClient (wself w)) reported σ1 = (Raise e1, σ2) ->
  is_Exception e1 = true ->
  printable e1 ->
  updateTask (taskClient (wself w)) failed σ2 = (r2, σ3) ->
  execute_events task f w =
    [EvExec task (Ok (PDict d)) task1;
     EvUpdate reported (Raise e1);
     EvPrint ("Error executing task: " +:+ message e1);
     EvUpdate failed r2]
  /\ (failed !! "status" = Some (PStr "FAILED")
      /\ failed !! "outputData" = Some output
      /\ failed !! "logs" = Some logs)
  /\ fst (execute task f w) = discard r2.
Proof.
  intros Hf Hs Ho Hl reported failed Hu1 He1 Hp Hu2.
  unfold execute_events.
  rewrite (execute_reported_run _ _ _ _ _ _ _ _ _ _ σ2 Hf Hs Ho Hl Hu1).
  fold reported. rewrite He1.
  rewrite (report_failed_run _ _ _ r2 σ3 Hp) by exact Hu2.
  fold failed. cbn [fst snd].
  split; [|split].
  - apply events_since_app. cbn [wtrace]. rewrite <- app_assoc. reflexivity.
  - destruct (reported_fields task1 status output logs) as (_ & H2 & H3).
    subst failed. repeat split.
    + apply lookup_insert_eq.
    + rewrite lookup_insert_ne by discriminate. exact H2.
    + rewrite lookup_insert_ne by discriminate. exact H3.
  - reflexivity.
Qed.

Lemma well_formed_dec (resp : pyval) : well_formed resp \/ ~ well_formed resp.
Proof.
  destruct (negb (type_is_dict resp)
            || negb (all_in ["status"; "output"; "logs"] resp)) eqn:Hchk.
  - right. intros H. apply validation_passes in H. congruence.
  - left. apply validation_passes, Hchk.
Qed.

(** Every call of [execute] is one of the runs of [execute_run]; in
    particular [execute] always returns or raises. *)
Lemma execute_runs task f w :
  exists res evs σ',
    execute task f w =
      (res, {| wself := wself w; wenv := σ'; wtrace := wtrace w ++ evs |})
    /\ execute_run task f w res evs σ'.
Proof.
  destruct (f task (wenv w)) as [[r task1] σ1] eqn:Hf.
  assert (Hcases :
    (exists e, r = Raise e /\ is_Exception e = false)
    \/ execution_failed r
    \/ exists resp, r = Ok resp /\ well_formed resp).
  { destruct r as [resp|e].
    - destruct (well_formed_dec resp) as [Hwf|Hbad].
      + right. right. eauto.
      + right. left. right. eauto.
    - destruct (is_Exception e) eqn:He.
      + right. left. left. eauto.
      + left. eauto. }
  destruct Hcases as [(e & -> & He)|[Hfail|(resp & -> & Hwf)]].
  - do 3 eexists. split.
    + rewrite (execute_raise _ _ _ _ _ _ Hf), He. reflexivity.
    + apply run_not_caught; assumption.
  - rewrite (execute_failed _ _ _ _ _ _ Hf Hfail).
    destruct (report_failed_runs (failure_reason r) task1
                (after_exec task r task1 σ1 w))
      as (res & hevs & σ' & -> & Hh).
    cbn [after_exec emit wself wenv wtrace] in *.
    exists res, (EvExec task r task1 :: hevs), σ'. split.
    + rewrite <- app_assoc. reflexivity.
    + eapply run_failed; eassumption.
  - destruct Hwf as (d & -> & [status Hs] & [output Ho] & [logs Hl]).
    destruct (updateTask (taskClient (wself w))
      (<["logs" := logs]> (<["outputData" := output]> (<["status" := status]> task1)))
      σ1) as [r1 σ2] eqn:Hu1.
    pose proof (execute_reported_run _ _ _ _ _ _ _ _ _ r1 σ2 Hf Hs Ho Hl Hu1)
      as Hrun. cbv zeta in Hrun.
    destruct r1 as [v|e1].
    + do 3 eexists. split; [exact Hrun|].
      apply (run_reported _ _ _ d task1 σ1 status output logs (Ok v) σ2);
        try assumption. discriminate.
    + destruct (is_Exception e1) eqn:He1.
      * rewrite Hrun.
        match goal with |- context [report_failed e1 ?t ?w2] =>
          destruct (report_failed_runs e1 t w2) as (res & hevs & σ' & -> & Hh) end.
        cbn [wself wenv wtrace] in *.
        exists res. eexists. exists σ'. split.
        -- rewrite <- app_assoc. reflexivity.
        -- cbn [app]. eapply run_reported_twice; eassumption.
      * do 3 eexists. split; [exact Hrun|].
        apply (run_reported _ _ _ d task1 σ1 status output logs (Raise e1) σ2);
          try assumption.
        intros e [= <-]. exact He1.
Qed.

Lemma execute_events_run task f w :
  exists res σ',
    execute task f w =
      (res, {| wself := wself w; wenv := σ';
               wtrace := wtrace w ++ execute_events task f w |})
    /\ execute_run task f w res (execute_events task f w) σ'.
Proof.
  destruct (execute_runs task f w) as (res & evs & σ' & Hex & Hrun).
  assert (Hev : execute_events task f w = evs).
  { unfold execute_events. rewrite Hex. apply events_since_app. reflexivity. }
  rewrite Hev. eauto.
Qed.

Ltac in_events H :=
  repeat (apply elem_of_cons in H as [H|H]; [try discriminate H|]);
  try (apply elem_of_nil in H; contradiction).

Ltac same_call Hf H :=
  rewrite Hf in H; injection H as ? ? ?; subst.

(** What the except clause reports, when it reports. *)
Lemma handler_run_update client err t σ res hevs σ' t' ru :
  @handler_run Env client err t σ res hevs σ' ->
  EvUpdate t' ru ∈ hevs ->
  t' = <["status" := PStr "FAILED"]> t.
Proof.
  intros Hh Hin. destruct Hh; in_events Hin.
  injection Hin as -> _. reflexivity.
Qed.



(** C6, amended: every task that [execute] hands to [updateTask] has its
    'status' set, and that status is 'FAILED' or else the very value the
    execution function put in its result's 'status', whatever it is. *)
Theorem reported_status_is_FAILED_or_copied task f w r task1 σ1 t ru :
  f task (wenv w) = (r, task1, σ1) ->
  EvUpdate t ru ∈ execute_events task f w ->
  is_Some (t !! "status")
  /\ (t !! "status" = Some (PStr "FAILED")
      \/ exists (d : dict) status,
           r = Ok (PDict d) /\ d !! "status" = Some status
           /\ t !! "status" = Some status).
Proof.
  intros Hf Hin.
  assert (Hgoal : t !! "status" = Some (PStr "FAILED")
      \/ exists (d : dict) status,
           r = Ok (PDict d) /\ d !! "status" = Some status
           /\ t !! "status" = Some status).
  { destruct (execute_events_run task f w) as (res & σ' & _ & Hrun).
    remember (execute_events task f w) as evs eqn:Hevs. clear Hevs.
    destruct Hrun as
      [e t1 s1 Hf' He
      |r' t1 s1 res hevs s2 Hf' Hfail Hh
      |d t1 s1 st out lg r1 s2 Hf' Hs Ho Hl Hu Hr1
      |d t1 s1 st out lg e1 s2 res hevs s3 Hf' Hs Ho Hl Hu1 He1 Hh];
      same_call Hf Hf'.
    - in_events Hin.
    - apply elem_of_cons in Hin as [Hin|Hin]; [discriminate|].
      rewrite (handler_run_update _ _ _ _ _ _ _ _ _ Hh Hin).
      left. apply lookup_insert_eq.
    - in_events Hin. injection Hin as -> _. right. exists d, st.
      split; [reflexivity|]. split; [assumption|]. apply reported_fields.
    - apply elem_of_cons in Hin as [Hin|Hin]; [discriminate|].
      apply elem_of_cons in Hin as [Hin|Hin].
      + injection Hin as -> _. right. exists d, st.
        split; [reflexivity|]. split; [assumption|]. apply reported_fields.
      + rewrite (handler_run_update _ _ _ _ _ _ _ _ _ Hh Hin).
        left. apply lookup_insert_eq. }
  split; [|exact Hgoal].
  destruct Hgoal as [->|(d & status & _ & _ & ->)]; eauto.
Qed.

(** *** The loops *)

Variable float_of_string : string -> option spec_float.
Variable time_sleep : spec_float -> Env -> result pyval * Env.

Ltac turn_done :=
  do 3 eexists;
  (split;
   [unfold emit; cbn [wself wenv wtrace]; rewrite <- ?app_assoc; reflexivity
   |cbn [continue_after app]; econstructor; eauto; try discriminate]).

Lemma poll_and_execute_body_turn taskType f domain w :
  exists res evs σ',
    poll_and_execute_body float_of_string time_sleep taskType f domain w =
      (res, {| wself := wself w; wenv := σ'; wtrace := wtrace w ++ evs |})
    /\ @poll_and_execute_turn Env WorkflowClient (worker_id (wself w)) f
         (continue_after res) evs.
Proof.
  unfold poll_and_execute_body, bind, get_self, lift_result, extern, ret.
  cbn [py_float].
  destruct (time_sleep (polling_interval (wself w)) (wenv w)) as [[v|e] σ1].
  2:{ do 3 eexists. split; [reflexivity|]. constructor. }
  destruct (pollForTask _ _ _ _ _) as [[polled|e] σ2].
  2:{ turn_done. }
  destruct polled as [| | | | | |d]; cbn [is_None negb getitem];
    try solve [turn_done].
  destruct (d !! "taskId") as [taskId|] eqn:Hid.
  2:{ turn_done. cbn [getitem]. rewrite Hid. reflexivity. }
  cbn [emit wself wenv wtrace].
  destruct (ackTask _ _ _ _) as [[acked|e] σ3].
  2:{ turn_done. }
  destruct (truthy acked) eqn:Hack.
  2:{ turn_done. }
  match goal with |- context [execute d f ?w3] =>
    destruct (execute_runs d f w3) as (res & evs & σ' & -> & Hrun) end.
  cbn [emit wself wenv wtrace] in *.
  exists res. eexists. exists σ'. split.
  - rewrite <- !app_assoc. reflexivity.
  - cbn [app]. eapply (pae_executed _ _ _ _ _ _ _ _ _ _ _ _ _ Hid Hack Hrun).
Qed.

Lemma consume_body_turn taskType f domain w :
  exists res evs σ',
    consume_body taskType f domain w =
      (res, {| wself := wself w; wenv := σ'; wtrace := wtrace w ++ evs |})
    /\ consume_turn (worker_id (wself w)) res evs.
Proof.
  unfold consume_body, bind, get_self, lift_result, extern, ret, spawn_execute.
  destruct (pollForTask _ _ _ _ _) as [[polled|e] σ1].
  2:{ turn_done. }
  destruct polled as [| | | | | |d]; cbn [is_None negb getitem];
    try solve [turn_done].
  destruct (d !! "taskId") as [taskId|] eqn:Hid.
  2:{ turn_done. cbn [getitem]. rewrite Hid. reflexivity. }
  cbn [emit wself wenv wtrace].
  destruct (ackTask _ _ _ _) as [[acked|e] σ2].
  2:{ turn_done. }
  destruct (truthy acked) eqn:Hack; turn_done.
Qed.

(** Every bounded run of [poll_and_execute] is a [loop_run] of its turns
    and leaves the worker object as it was. *)
Lemma poll_and_execute_runs fuel taskType f domain w :
  exists out evs σ',
    poll_and_execute float_of_string time_sleep fuel taskType f domain w =
      (out, {| wself := wself w; wenv := σ'; wtrace := wtrace w ++ evs |})
    /\ loop_run (@poll_and_execute_turn Env WorkflowClient (worker_id (wself w)) f)
         fuel out evs.
Proof.
  revert w. induction fuel as [|fuel IH]; intros w.
  - exists StillLooping, [], (wenv w). split.
    + cbn. rewrite app_nil_r. destruct w; reflexivity.
    + constructor.
  - cbn [poll_and_execute].
    destruct (poll_and_execute_body_turn taskType f domain w)
      as (res & evs & σ1 & -> & Hturn).
    destruct res as [[]|e]; cbn [continue_after] in Hturn.
    + destruct (IH {| wself := wself w; wenv := σ1; wtrace := wtrace w ++ evs |})
        as (out & evs' & σ' & -> & Hloop).
      cbn [wself wtrace] in *.
      exists out, (evs ++ evs'), σ'. split.
      * rewrite app_assoc. reflexivity.
      * eapply loop_continue; eassumption.
    + exists (Exits (Raise e)), evs, σ1. split; [reflexivity|].
      apply loop_raise. exact Hturn.
Qed.

Lemma consume_runs fuel taskType f domain limit check_existing_tasks w :
  exists out evs σ',
    consume fuel taskType f domain limit check_existing_tasks w =
      (out, {| wself := wself w; wenv := σ'; wtrace := wtrace w ++ evs |})
    /\ loop_run (consume_turn (worker_id (wself w))) fuel out evs.
Proof.
  revert w. induction fuel as [|fuel IH]; intros w.
  - exists StillLooping, [], (wenv w). split.
    + cbn. rewrite app_nil_r. destruct w; reflexivity.
    + constructor.
  - cbn [consume].
    destruct (consume_body_turn taskType f domain w)
      as (res & evs & σ1 & -> & Hturn).
    destruct res as [[|]|e].
    + exists (Exits (Ok tt)), evs, σ1. split; [reflexivity|].
      apply loop_break. exact Hturn.
    + destruct (IH {| wself := wself w; wenv := σ1; wtrace := wtrace w ++ evs |})
        as (out & evs' & σ' & -> & Hloop).
      cbn [wself wtrace] in *.
      exists out, (evs ++ evs'), σ'. split.
      * rewrite app_assoc. reflexivity.
      * eapply loop_continue; eassumption.
    + exists (Exits (Raise e)), evs, σ1. split; [reflexivity|].
      apply loop_raise. exact Hturn.
Qed.

(** *** Acknowledgment before execution *)

(** Where an event can sit in a list given element by element. *)
Ltac positions H :=
  lazymatch type of H with
  | [] = ?pre ++ _ :: _ => destruct pre; discriminate H
  | _ :: _ = ?pre ++ _ :: _ =>
      let x := fresh "x" in
      let p := fresh "pre" in
      destruct pre as [|x p]; cbn [app] in H;
      [injection H as <- <- | injection H as <- H; positions H]
  end.

Lemma handler_run_events client err t σ res hevs σ' :
  @handler_run Env client err t σ res hevs σ' ->
  Forall inside_execute hevs
  /\ forall before t' ru after,
       hevs = before ++ EvUpdate t' ru :: after -> Forall reporting before.
Proof.
  intros Hh. destruct Hh; (split; [repeat constructor|]);
    intros before t' ru after Hpos;
    remember (EvUpdate t' ru) as ev eqn:Hev;
    positions Hpos; try discriminate Hev; repeat constructor.
Qed.

(** The events of an execution: the call, then events inside [execute];
    what comes before a report are only prints that returned and reports. *)
Lemma execute_run_events task f w res evs σ' :
  execute_run task f w res evs σ' ->
  exists r task1 mid,
    evs = EvExec task r task1 :: mid
    /\ Forall inside_execute mid
    /\ forall before t ru after,
         mid = before ++ EvUpdate t ru :: after -> Forall reporting before.
Proof.
  intros Hrun. destruct Hrun as
    [e t1 s1 Hf He
    |r t1 s1 res hevs s2 Hf Hfail Hh
    |d t1 s1 st out lg r1 s2 Hf Hs Ho Hl Hu Hr1
    |d t1 s1 st out lg e1 s2 res hevs s3 Hf Hs Ho Hl Hu1 He1 Hh];
    do 3 eexists; (split; [reflexivity|]).
  - split; [constructor|]. intros before t ru after H.
    destruct before; discriminate H.
  - exact (handler_run_events _ _ _ _ _ _ _ Hh).
  - split; [repeat constructor|]. intros before t ru after H.
    remember (EvUpdate t ru) as ev eqn:Hev.
    positions H; try discriminate Hev; repeat constructor.
  - destruct (handler_run_events _ _ _ _ _ _ _ Hh) as [Hall Hbefore].
    split; [constructor; [exact I|exact Hall]|].
    intros before t ru after H.
    destruct before as [|x before]; cbn [app] in H; [constructor|].
    injection H as <- H. constructor; [exact I|]. exact (Hbefore _ _ _ _ H).
Qed.

Lemma starts_turn_app (a b : list event) :
  starts_turn a -> starts_turn b -> starts_turn (a ++ b).
Proof. destruct a as [|[] a]; cbn; auto. Qed.

Lemma in_app_cases {A} (a b pre post : list A) (x : A) :
  a ++ b = pre ++ x :: post ->
  (exists post', a = pre ++ x :: post' /\ post = post' ++ b)
  \/ (exists pre', pre = a ++ pre' /\ b = pre' ++ x :: post).
Proof.
  revert pre. induction a as [|y a IH]; intros pre H.
  - right. exists pre. auto.
  - destruct pre as [|z pre]; cbn [app] in H; injection H as <- H.
    + left. exists a. auto.
    + destruct (IH pre H) as [(post' & -> & ->)|(pre' & -> & ->)].
      * left. exists post'. auto.
      * right. exists pre'. auto.
Qed.

Lemma acked_first_app wid (a b : list event) :
  acked_first wid a -> acked_first wid b -> starts_turn b ->
  acked_first wid (a ++ b).
Proof.
  intros Ha Hb Hstart pre ev post H.
  destruct (in_app_cases _ _ _ _ _ H) as [(post' & -> & ->)|(pre' & -> & ->)].
  - specialize (Ha pre ev post' eq_refl).
    destruct ev as [task r task1|line|t r|secs r|tT wk dm r|tid wk r|task|line e];
      try exact Ha.
    + destruct r as [[]|]; try exact I. apply starts_turn_app; assumption.
    + destruct r as [acked|]; try exact I.
      intros Hfalsy. apply starts_turn_app; auto.
  - specialize (Hb pre' ev post eq_refl).
    destruct ev as [task r task1|line|t r|secs r|tT wk dm r|tid wk r|task|line e];
      try exact Hb.
    + destruct Hb as (p & tT & dm & tid & acked & -> & Hid & Hack).
      exists (a ++ p), tT, dm, tid, acked. rewrite app_assoc. auto.
    + destruct Hb as (p & task & r' & task1 & mid & -> & Hmid).
      exists (a ++ p), task, r', task1, mid. rewrite app_assoc. auto.
    + destruct Hb as (p & tT & dm & tid & acked & -> & Hid & Hack).
      exists (a ++ p), tT, dm, tid, acked. rewrite app_assoc. auto.
Qed.

Lemma acked_first_executed wid secs v taskType domain (d : dict) taskId acked
    r task1 mid :
  d !! "taskId" = Some taskId ->
  truthy acked = true ->
  Forall inside_execute mid ->
  (forall before t ru after,
     mid = before ++ EvUpdate t ru :: after -> Forall reporting before) ->
  acked_first wid
    (EvSleep secs (Ok v) :: EvPoll taskType wid domain (Ok (PDict d))
       :: EvAck taskId wid (Ok acked) :: EvExec d r task1 :: mid).
Proof.
  intros Hid Hack Hmid Hbefore pre ev post H.
  destruct pre as [|x0 pre]; cbn [app] in H; [injection H as <- <-; exact I|].
  injection H as <- H.
  destruct pre as [|x1 pre]; cbn [app] in H; [injection H as <- <-; exact I|].
  injection H as <- H.
  destruct pre as [|x2 pre]; cbn [app] in H.
  { injection H as <- <-. cbn. rewrite Hack. discriminate. }
  injection H as <- H.
  destruct pre as [|x3 pre]; cbn [app] in H.
  { injection H as <- <-.
    exists [EvSleep secs (Ok v)], taskType, domain, taskId, acked. auto. }
  injection H as <- H.
  pose proof Hmid as Hev. rewrite H in Hev.
  apply Forall_app in Hev as [_ Hev].
  apply Forall_cons in Hev as [Hev _].
  destruct ev; try contradiction; try exact I.
  exists [EvSleep secs (Ok v); EvPoll taskType wid domain (Ok (PDict d));
          EvAck taskId wid (Ok acked)], d, r, task1, pre.
  split; [reflexivity|]. exact (Hbefore _ _ _ _ H).
Qed.

Lemma poll_and_execute_turn_acked_first wid f res evs :
  @poll_and_execute_turn Env WorkflowClient wid f res evs ->
  acked_first wid evs /\ starts_turn evs /\ evs <> [].
Proof.
  intros Hturn. destruct Hturn as
    [secs e|secs v tT dm e|secs v tT dm|secs v tT dm polled e Hp Hg
    |secs v tT dm d tid e Hid|secs v tT dm d tid acked Hid Hack
    |secs v tT dm d tid acked w res evs σ' Hid Hack Hrun];
    (split; [|split; [exact I|discriminate]]).
  1-6: intros pre ev post H; positions H; cbn; auto;
    try (destruct polled; cbn; auto).
  destruct (execute_run_events _ _ _ _ _ _ Hrun)
    as (r & task1 & mid & -> & Hmid & Hbefore).
  apply acked_first_executed; assumption.
Qed.

Lemma consume_turn_acked_first wid res evs :
  consume_turn wid res evs ->
  acked_first wid evs /\ starts_turn evs /\ evs <> [].
Proof.
  intros Hturn. destruct Hturn as
    [tT dm e|tT dm|tT dm polled e Hp Hg|tT dm d tid e Hid
    |tT dm d tid acked Hid Hack|tT dm d tid acked Hid Hack];
    (split; [|split; [exact I|discriminate]]);
    intros pre ev post H; positions H; cbn; auto;
    try (destruct polled; cbn; auto).
  - rewrite Hack. discriminate.
  - exists [], tT, dm, tid, acked. auto.
Qed.

Lemma loop_run_acked_first (turn : result bool -> list event -> Prop) wid :
  (forall res evs, turn res evs ->
     acked_first wid evs /\ starts_turn evs /\ evs <> []) ->
  forall fuel out evs,
    loop_run turn fuel out evs -> acked_first wid evs /\ starts_turn evs.
Proof.
  intros Hturn fuel out evs Hloop.
  induction Hloop as [|fuel e evs Ht|fuel evs Ht|fuel evs out evs' Ht Hloop IH].
  - split; [|exact I]. intros pre ev post H. destruct pre; discriminate H.
  - destruct (Hturn _ _ Ht) as (? & ? & _). auto.
  - destruct (Hturn _ _ Ht) as (? & ? & _). auto.
  - destruct (Hturn _ _ Ht) as (Ha & Hs & Hne). destruct IH as [IHa IHs].
    split.
    + apply acked_first_app; assumption.
    + apply starts_turn_app; assumption.
Qed.

(** C4: in every run of [poll_and_execute] and of [consume], however
    long, a task is executed (in [consume]: a thread is started to
    execute it) only right after this worker polled that task and
    [ackTask], called with the task's 'taskId' and the worker's id,
    returned a truthy value; [updateTask] occurs only inside such an
    execution; and after a poll that returned no task or an
    acknowledgment that returned a falsy value, nothing happens but the
    next turn of the loop. *)
Theorem tasks_run_only_after_ack
    fuel taskType f domain limit check_existing_tasks w :
  acked_first (worker_id (wself w))
    (events_since w
       (snd (poll_and_execute float_of_string time_sleep fuel taskType f domain w)))
  /\ acked_first (worker_id (wself w))
       (events_since w
          (snd (consume fuel taskType f domain limit check_existing_tasks w))).
Proof.
  split.
  - destruct (poll_and_execute_runs fuel taskType f domain w)
      as (out & evs & σ' & -> & Hloop).
    rewrite (events_since_app w _ evs) by reflexivity.
    eapply loop_run_acked_first; [|exact Hloop].
    apply poll_and_execute_turn_acked_first.
  - destruct (consume_runs fuel taskType f domain limit check_existing_tasks w)
      as (out & evs & σ' & -> & Hloop).
    rewrite (events_since_app w _ evs) by reflexivity.
    eapply loop_run_acked_first; [|exact Hloop].
    apply consume_turn_acked_first.
Qed.

(** *** [consume] stops at the first empty poll *)

Lemma poll_calls_app (a b : list event) :
  poll_calls (a ++ b) = poll_calls a + poll_calls b.
Proof. unfold poll_calls. rewrite filter_app, length_app. reflexivity. Qed.

Lemma consume_turn_polls_once wid res evs :
  consume_turn wid res evs -> poll_calls evs = 1.
Proof. intros Hturn. destruct Hturn; reflexivity. Qed.

Lemma consume_turn_empty_poll wid res evs pre taskType wk domain post :
  consume_turn wid res evs ->
  evs = pre ++ EvPoll taskType wk domain (Ok PNone) :: post ->
  post = [] /\ res = Ok true.
Proof.
  intros Hturn H.
  remember (EvPoll taskType wk domain (Ok PNone)) as ev eqn:Hev.
  destruct Hturn; positions H; try discriminate Hev; auto.
  injection Hev as _ _ _ ->. contradiction.
Qed.

Lemma consume_loop_empty_poll wid fuel out evs :
  loop_run (consume_turn wid) fuel out evs ->
  (forall pre taskType wk domain post,
     evs = pre ++ EvPoll taskType wk domain (Ok PNone) :: post ->
     post = [] /\ out = Exits (Ok tt))
  /\ (out = StillLooping -> poll_calls evs = fuel).
Proof.
  intros Hloop.
  induction Hloop as [|fuel e evs Ht|fuel evs Ht|fuel evs out evs' Ht Hloop IH].
  - split; [|reflexivity]. intros pre ? ? ? post H. destruct pre; discriminate H.
  - split; [|discriminate]. intros pre tT wk dm post H.
    destruct (consume_turn_empty_poll _ _ _ _ _ _ _ _ Ht H). discriminate.
  - split; [|discriminate]. intros pre tT wk dm post H.
    destruct (consume_turn_empty_poll _ _ _ _ _ _ _ _ Ht H). auto.
  - destruct IH as [IHnone IHfuel]. split.
    + intros pre tT wk dm post H.
      destruct (in_app_cases _ _ _ _ _ H) as [(post' & H1 & ->)|(pre' & -> & H2)].
      * destruct (consume_turn_empty_poll _ _ _ _ _ _ _ _ Ht H1). discriminate.
      * eapply IHnone. exact H2.
    + intros Hout. rewrite poll_calls_app, (consume_turn_polls_once _ _ _ Ht).
      rewrite (IHfuel Hout). reflexivity.
Qed.

(** C5: [consume] returns the first time [pollForTask] returns None: in
    any run, a poll that returned None is the last event (no [ackTask],
    no execution after it) and the run has returned; a run that is still
    looping when its fuel is spent has made as many polls as it had
    fuel, none of them empty; and if the poll made in the current state
    returns None, [consume] returns after exactly that one poll. *)
Theorem consume_returns_at_first_empty_poll
    fuel taskType f domain limit check_existing_tasks w out w' :
  consume fuel taskType f domain limit check_existing_tasks w = (out, w') ->
  let evs := events_since w w' in
  (forall pre tT wk dm post,
     evs = pre ++ EvPoll tT wk dm (Ok PNone) :: post ->
     post = [] /\ out = Exits (Ok tt))
  /\ (out = StillLooping -> poll_calls evs = fuel)
  /\ (forall σ,
        0 < fuel ->
        pollForTask (taskClient (wself w)) taskType (worker_id (wself w)) domain
          (wenv w) = (Ok PNone, σ) ->
        out = Exits (Ok tt)
        /\ evs = [EvPoll taskType (worker_id (wself w)) domain (Ok PNone)]).
Proof.
  intros Hrun evs.
  destruct (consume_runs fuel taskType f domain limit check_existing_tasks w)
    as (out0 & evs0 & σ' & Heq & Hloop).
  rewrite Hrun in Heq. injection Heq as -> ->.
  assert (Hevs : evs = evs0) by (apply events_since_app; reflexivity).
  rewrite Hevs. clear Hevs evs.
  destruct (consume_loop_empty_poll _ _ _ _ Hloop) as [Hnone Hfuel].
  split; [exact Hnone|]. split; [exact Hfuel|].
  intros σ Hpos Hpoll.
  destruct fuel as [|fuel]; [lia|].
  assert (Hstop :
    consume (S fuel) taskType f domain limit check_existing_tasks w =
      (Exits (Ok tt),
       emit σ (EvPoll taskType (worker_id (wself w)) domain (Ok PNone)) w)).
  { cbn [consume]. unfold consume_body, bind, get_self, extern.
    rewrite Hpoll. reflexivity. }
  rewrite Hstop in Hrun. injection Hrun as <- _ Htr.
  split; [reflexivity|].
  apply app_inv_head in Htr. auto.
Qed.

(** *** Failures of the remote calls *)












(** *** Construction *)

Variable hostname : string.
Variable WFClientMgr : pyval -> result (@WFClientMgr_obj Env WorkflowClient).

Lemma py_float_convertible (v : pyval) :
  (convertible float_of_string v /\ exists x, py_float float_of_string v = Ok x)
  \/ (~ convertible float_of_string v /\ raises (py_float float_of_string v)).
Proof.
  destruct v as [|b|n|x|s|l|d]; cbn [py_float convertible];
    try (right; split; [tauto|exact I]).
  - left. split; [exact I|]. destruct b; vm_compute; eauto.
  - destruct (float_of_int n) as [x|e]; [left|right]; cbn; eauto.
  - left. eauto.
  - destruct (float_of_string s) as [x|]; [left; eauto|right].
    split; [|exact I]. intros [x Hx]. discriminate.
Qed.

(** The worker object is never assigned to after construction. *)
Lemma methods_keep_self w task f fuel taskType domain limit check_existing_tasks :
  wself (snd (execute task f w)) = wself w
  /\ wself (snd (poll_and_execute float_of_string time_sleep fuel taskType f
                   domain w)) = wself w
  /\ wself (snd (consume fuel taskType f domain limit check_existing_tasks w))
     = wself w.
Proof.
  destruct (execute_runs task f w) as (? & ? & ? & -> & _).
  destruct (poll_and_execute_runs fuel taskType f domain w) as (? & ? & ? & -> & _).
  destruct (consume_runs fuel taskType f domain limit check_existing_tasks w)
    as (? & ? & ? & -> & _).
  auto.
Qed.

(** C8: the constructor turns [thread_count] and [polling_interval]
    into floats with [float]; once the client manager is built, it
    raises if and only if one of the two cannot be converted, and
    otherwise it returns a worker that holds the two converted values,
    which no method of the worker changes afterwards. *)
Theorem init_coerces_or_fails
    server_url thread_count0 polling_interval0 worker_id0 wfcMgr :
  WFClientMgr server_url = Ok wfcMgr ->
  let new :=
    __init__ hostname float_of_string WFClientMgr server_url thread_count0
      polling_interval0 worker_id0 in
  (raises new <->
     ~ convertible float_of_string thread_count0
     \/ ~ convertible float_of_string polling_interval0)
  /\ (convertible float_of_string thread_count0 ->
      convertible float_of_string polling_interval0 ->
      exists self,
        new = Ok self
        /\ py_float float_of_string thread_count0 = Ok (thread_count self)
        /\ py_float float_of_string polling_interval0 = Ok (polling_interval self)
        /\ forall w task f fuel taskType domain limit check_existing_tasks,
             wself w = self ->
             wself (snd (execute task f w)) = self
             /\ wself (snd (poll_and_execute float_of_string time_sleep fuel
                              taskType f domain w)) = self
             /\ wself (snd (consume fuel taskType f domain limit
                              check_existing_tasks w)) = self).
Proof.
  intros Hmgr new. subst new. unfold __init__. rewrite Hmgr.
  destruct (py_float_convertible thread_count0) as [[Hc1 [x1 ->]]|[Hn1 Hr1]];
    [destruct (py_float_convertible polling_interval0)
       as [[Hc2 [x2 ->]]|[Hn2 Hr2]]|].
  - split.
    + split; [intros []|intros [H|H]; contradiction].
    + intros _ _. eexists. split; [reflexivity|].
      cbn [thread_count polling_interval]. do 2 (split; [reflexivity|]).
      intros w task f fuel taskType domain limit check_existing_tasks <-.
      apply methods_keep_self.
  - destruct (py_float float_of_string polling_interval0); [destruct Hr2|].
    split; [|intros _ H; contradiction].
    split; [auto|intros _; exact I].
  - destruct (py_float float_of_string thread_count0); [destruct Hr1|].
    split; [|intros H; contradiction].
    split; [auto|intros _; exact I].
Qed.

(** C10: a falsy [worker_id] argument, such as None (the default) or the
    empty string, makes the worker's identity the module's [hostname];
    a truthy one is stored as given. *)
Theorem init_worker_id
    server_url thread_count0 polling_interval0 worker_id0 self :
  __init__ hostname float_of_string WFClientMgr server_url thread_count0
    polling_interval0 worker_id0 = Ok self ->
  (truthy worker_id0 = false -> worker_id self = PStr hostname)
  /\ (worker_id0 = PNone \/ worker_id0 = PStr "" -> worker_id self = PStr hostname)
  /\ (truthy worker_id0 = true -> worker_id self = worker_id0).
Proof.
  unfold __init__. intros Hnew.
  destruct (WFClientMgr server_url); [|discriminate].
  destruct (py_float float_of_string thread_count0); [|discriminate].
  destruct (py_float float_of_string polling_interval0); [|discriminate].
  injection Hnew as <-. cbn [worker_id]. unfold py_or.
  split; [intros ->; reflexivity|].
  split; [intros [->| ->]; reflexivity|intros ->; reflexivity].
Qed.

(** *** More on [execute] *)

(** X1: an exception of the execution function that is not an Exception
    (KeyboardInterrupt, SystemExit) is not handled: [execute] raises it,
    and after the call nothing is printed and [updateTask] is not called. *)
Theorem execute_lets_system_exit_through task f w e task1 σ1 :
  f task (wenv w) = (Raise e, task1, σ1) ->
  is_Exception e = false ->
  fst (execute task f w) = Raise e
  /\ execute_events task f w = [EvExec task (Raise e) task1]
  /\ update_calls (execute_events task f w) = 0.
Proof.
  intros Hf He. unfold execute_events.
  rewrite (execute_raise _ _ _ _ _ _ Hf), He. cbn [fst snd].
  assert (Hev : events_since w (after_exec task (Raise e) task1 σ1 w)
                = [EvExec task (Raise e) task1]).
  { apply events_since_app. reflexivity. }
  rewrite Hev. auto.
Qed.

(** X2: [execute] writes three fields of the task and no other: every
    task it reports agrees with the task as the execution function left
    it on every key but 'status', 'outputData' and 'logs' (so on
    'taskId'); and when the execution failed, on every key but 'status'. *)
Theorem execute_touches_only_three_fields task f w r task1 σ1 t ru :
  f task (wenv w) = (r, task1, σ1) ->
  EvUpdate t ru ∈ execute_events task f w ->
  (forall k, k ≠ "status" -> k ≠ "outputData" -> k ≠ "logs" ->
     t !! k = task1 !! k)
  /\ (~ (exists resp, r = Ok resp /\ well_formed resp) ->
      forall k, k ≠ "status" -> t !! k = task1 !! k).
Proof.
  intros Hf Hin.
  destruct (execute_events_run task f w) as (res & σ' & _ & Hrun).
  remember (execute_events task f w) as evs eqn:Hevs. clear Hevs.
  destruct Hrun as
    [e t1 s1 Hf' He
    |r' t1 s1 res' hevs s2 Hf' Hfail Hh
    |d t1 s1 st out lg r1 s2 Hf' Hs Ho Hl Hu Hr1
    |d t1 s1 st out lg e1 s2 res' hevs s3 Hf' Hs Ho Hl Hu1 He1 Hh];
    same_call Hf Hf'.
  - in_events Hin.
  - apply elem_of_cons in Hin as [Hin|Hin]; [discriminate Hin|].
    rewrite (handler_run_update _ _ _ _ _ _ _ _ _ Hh Hin).
    split; intros; rewrite lookup_insert_ne by congruence; reflexivity.
  - in_events Hin. injection Hin as -> _. split.
    + intros k K1 K2 K3. rewrite !lookup_insert_ne by congruence. reflexivity.
    + intros Hno. exfalso. apply Hno. exists (PDict d). split; [reflexivity|].
      exists d. rewrite Hs, Ho, Hl. eauto.
  - split.
    + apply elem_of_cons in Hin as [Hin|Hin]; [discriminate Hin|].
      apply elem_of_cons in Hin as [Hin|Hin].
      * injection Hin as -> _.
        intros k K1 K2 K3. rewrite !lookup_insert_ne by congruence. reflexivity.
      * rewrite (handler_run_update _ _ _ _ _ _ _ _ _ Hh Hin).
        intros k K1 K2 K3. rewrite !lookup_insert_ne by congruence. reflexivity.
    + intros Hno. exfalso. apply Hno. exists (PDict d). split; [reflexivity|].
      exists d. rewrite Hs, Ho, Hl. eauto.
Qed.

(** X3: what [execute] can raise.  The exception of the execution
    function, when it is not an Exception.  What its last [updateTask]
    call raised.  Or what the first line of the except clause raised:
    either [str] of the caught Exception (the one the execution function
    raised, or the one the first [updateTask] raised), with nothing
    printed and no further [updateTask]; or the print itself, which is
    then the last event. *)
Theorem execute_raises_only_from_update_or_exit task f w r task1 σ1 e :
  f task (wenv w) = (r, task1, σ1) ->
  fst (execute task f w) = Raise e ->
  (r = Raise e /\ is_Exception e = false)
  \/ (exists pre t, execute_events task f w = pre ++ [EvUpdate t (Raise e)])
  \/ (exists err,
        str_exn err = Raise e /\ is_Exception err = true
        /\ ((r = Raise err /\ execute_events task f w = [EvExec task r task1])
            \/ (exists t,
                  execute_events task f w
                  = [EvExec task r task1; EvUpdate t (Raise err)])))
  \/ (exists pre line, execute_events task f w = pre ++ [EvPrintRaises line e]).
Proof.
  intros Hf Hres.
  destruct (execute_events_run task f w) as (res & σ' & Hex & Hrun).
  rewrite Hex in Hres. cbn [fst] in Hres. subst res.
  remember (execute_events task f w) as evs eqn:Hevs. clear Hevs Hex.
  remember (Raise e) as res eqn:Hres.
  destruct Hrun as
    [e' t1 s1 Hf' He
    |r' t1 s1 res' hevs s2 Hf' Hfail Hh
    |d t1 s1 st out lg r1 s2 Hf' Hs Ho Hl Hu Hr1
    |d t1 s1 st out lg e1 s2 res' hevs s3 Hf' Hs Ho Hl Hu1 He1 Hh];
    same_call Hf Hf'.
  - injection Hres as ->. left. auto.
  - inversion Hh as [e0 Hstr Hr|msg e0 Hstr Hr|msg r2 σ2 Hstr Hu Hr]; subst.
    + right. right. left.
      destruct Hfail as [(err & -> & Herr)|(resp & -> & Hbad)];
        [|discriminate Hstr].
      exists err. cbn [failure_reason] in Hstr. auto.
    + right. right. right.
      exists [EvExec task r' t1]. eexists. reflexivity.
    + destruct r2 as [|e2]; [discriminate Hr|]. injection Hr as ->.
      right. left. eexists [_; _]. eexists. reflexivity.
  - destruct r1 as [|e1]; [discriminate|]. injection Hres as ->.
    right. left. exists [EvExec task (Ok (PDict d)) t1]. eexists. reflexivity.
  - inversion Hh as [e0 Hstr Hr|msg e0 Hstr Hr|msg r2 σ2 Hstr Hu Hr]; subst.
    + right. right. left.
      exists e1. split; [exact Hstr|]. split; [exact He1|].
      right. eexists. reflexivity.
    + right. right. right.
      eexists [_; _]. eexists. reflexivity.
    + destruct r2 as [|e2]; [discriminate Hr|]. injection Hr as ->.
      right. left. eexists [_; _; _]. eexists. reflexivity.
Qed.

(** X16: an Exception of the execution function that the except clause
    cannot print is not reported.  When [str] of it raises, [execute]
    raises that error right after the call; when the print raises,
    [execute] raises that error after the failed print.  In both cases
    [updateTask] is not called. *)
Theorem execute_unprintable_failure_is_not_reported task f w err task1 σ1 :
  f task (wenv w) = (Raise err, task1, σ1) ->
  is_Exception err = true ->
  ~ printable err ->
  update_calls (execute_events task f w) = 0
  /\ exists e,
       fst (execute task f w) = Raise e
       /\ ((str_exn err = Raise e
            /\ execute_events task f w = [EvExec task (Raise err) task1])
           \/ (exists msg,
                 str_exn err = Ok {| chars := msg; unwritable := Some e |}
                 /\ execute_events task f w =
                      [EvExec task (Raise err) task1;
                       EvPrintRaises ("Error executing task: " +:+ msg) e])).
Proof.
  intros Hf He Hp. unfold execute_events.
  rewrite (execute_raise _ _ _ _ _ _ Hf), He. unfold report_failed.
  destruct (str_exn err) as [[msg [e|]]|e] eqn:Hstr; cbn [chars unwritable].
  - cbn [fst snd].
    assert (Hev :
      events_since w
        (emit (wenv (after_exec task (Raise err) task1 σ1 w))
           (EvPrintRaises ("Error executing task: " +:+ msg) e)
           (after_exec task (Raise err) task1 σ1 w))
      = [EvExec task (Raise err) task1;
         EvPrintRaises ("Error executing task: " +:+ msg) e]).
    { apply events_since_app. unfold after_exec, emit. cbn [wtrace].
      rewrite <- app_assoc. reflexivity. }
    rewrite Hev. split; [reflexivity|].
    exists e. split; [reflexivity|]. right. exists msg. auto.
  - exfalso. apply Hp. exists msg. exact Hstr.
  - cbn [fst snd].
    assert (Hev : events_since w (after_exec task (Raise err) task1 σ1 w)
                  = [EvExec task (Raise err) task1]).
    { apply events_since_app. reflexivity. }
    rewrite Hev. split; [reflexivity|].
    exists e. split; [reflexivity|]. left. auto.
Qed.

(** *** More on the loops *)

Lemma loop_run_no_break (turn : result bool -> list event -> Prop) :
  (forall evs, ~ turn (Ok true) evs) ->
  forall fuel out evs, loop_run turn fuel out evs -> out <> Exits (Ok tt).
Proof.
  intros Hturn fuel out evs Hloop.
  induction Hloop as [|fuel e evs Ht|fuel evs Ht|fuel evs out evs' Ht Hloop IH];
    try discriminate; auto.
  destruct (Hturn _ Ht).
Qed.

Lemma loop_run_polls (turn : result bool -> list event -> Prop) :
  (forall evs, turn (Ok false) evs -> poll_calls evs = 1) ->
  forall fuel evs, loop_run turn fuel StillLooping evs -> poll_calls evs = fuel.
Proof.
  intros Hturn fuel evs Hloop.
  remember StillLooping as out eqn:Hout.
  induction Hloop as [|fuel e evs Ht|fuel evs Ht|fuel evs out evs' Ht Hloop IH];
    try discriminate; [reflexivity|].
  rewrite poll_calls_app, (Hturn _ Ht), (IH Hout). reflexivity.
Qed.

Lemma reporting_no_polls (mid : list event) :
  Forall inside_execute mid -> poll_calls mid = 0.
Proof.
  induction 1 as [|ev mid Hev _ IH]; [reflexivity|].
  destruct ev; try contradiction; exact IH.
Qed.

Lemma poll_and_execute_turn_polls_once wid f evs :
  @poll_and_execute_turn Env WorkflowClient wid f (Ok false) evs ->
  poll_calls evs = 1.
Proof.
  intros Hturn. remember (Ok false) as res eqn:Hres.
  destruct Hturn as
    [secs e|secs v tT dm e|secs v tT dm|secs v tT dm polled e Hp Hg
    |secs v tT dm d tid e Hid|secs v tT dm d tid acked Hid Hack
    |secs v tT dm d tid acked w res evs σ' Hid Hack Hrun];
    try discriminate; try reflexivity.
  destruct (execute_run_events _ _ _ _ _ _ Hrun)
    as (r & task1 & mid & -> & Hmid & _).
  cbn [app]. change (poll_calls (_ :: _ :: _ :: _ :: mid)) with (S (poll_calls mid)).
  rewrite (reporting_no_polls _ Hmid). reflexivity.
Qed.

(** X4: [poll_and_execute] never returns: however long it runs it is
    still looping or has exited by raising; and while it loops it polls
    exactly once per turn. *)
Theorem poll_and_execute_never_returns fuel taskType f domain w :
  let run := poll_and_execute float_of_string time_sleep fuel taskType f domain w in
  fst run <> Exits (Ok tt)
  /\ (fst run = StillLooping -> poll_calls (events_since w (snd run)) = fuel).
Proof.
  cbv zeta.
  destruct (poll_and_execute_runs fuel taskType f domain w)
    as (out & evs & σ' & -> & Hloop).
  rewrite (events_since_app w _ evs) by reflexivity. cbn [fst]. split.
  - eapply loop_run_no_break; [|exact Hloop].
    intros evs' Ht. remember (Ok true) as res eqn:Hres.
    destruct Ht; try discriminate.
    match goal with H : continue_after ?x = _ |- _ => destruct x; discriminate H end.
  - intros ->. eapply loop_run_polls; [|exact Hloop].
    apply poll_and_execute_turn_polls_once.
Qed.

Lemma stops_at_app (fatal : event -> exn -> Prop) (raised : exn -> Prop)
    (a b : list event) :
  stops_at fatal (fun _ => False) a ->
  stops_at fatal raised b ->
  stops_at fatal raised (a ++ b).
Proof.
  intros Ha Hb pre ev post e H Hfatal.
  destruct (in_app_cases _ _ _ _ _ H) as [(post' & -> & ->)|(pre' & -> & ->)].
  - destruct (Ha pre ev post' e eq_refl Hfatal) as [_ []].
  - exact (Hb pre' ev post e eq_refl Hfatal).
Qed.

Lemma stops_at_mono (fatal : event -> exn -> Prop) (raised raised' : exn -> Prop)
    (evs : list event) :
  (forall e, raised e -> raised' e) ->
  stops_at fatal raised evs -> stops_at fatal raised' evs.
Proof.
  intros Himp Hs pre ev post e H Hfatal.
  destruct (Hs pre ev post e H Hfatal). auto.
Qed.

Lemma loop_run_stops_at (fatal : event -> exn -> Prop)
    (turn : result bool -> list event -> Prop) :
  (forall res evs, turn res evs -> stops_at fatal (fun e => res = Raise e) evs) ->
  forall fuel out evs,
    loop_run turn fuel out evs ->
    stops_at fatal (fun e => out = Exits (Raise e)) evs.
Proof.
  intros Hturn fuel out evs Hloop.
  induction Hloop as [|fuel e evs Ht|fuel evs Ht|fuel evs out evs' Ht Hloop IH].
  - intros pre ev post e H. destruct pre; discriminate H.
  - eapply stops_at_mono; [|exact (Hturn _ _ Ht)]. intros e' [= ->]. reflexivity.
  - eapply stops_at_mono; [|exact (Hturn _ _ Ht)]. discriminate.
  - apply stops_at_app; [|exact IH].
    eapply stops_at_mono; [|exact (Hturn _ _ Ht)]. discriminate.
Qed.

Lemma execution_never_fatal (fatal : event -> exn -> Prop) task r task1 mid :
  (forall ev e, fatal ev e -> is_poll ev = true \/ exists secs x, ev = EvSleep secs x) ->
  Forall inside_execute mid ->
  stops_at fatal (fun _ => False) (EvExec task r task1 :: mid).
Proof.
  intros Hkind Hmid pre ev post e H Hfatal. exfalso.
  assert (Hin : ev ∈ EvExec task r task1 :: mid).
  { rewrite H. apply elem_of_app. right. apply elem_of_cons. auto. }
  apply elem_of_cons in Hin as [->|Hin].
  - destruct (Hkind _ _ Hfatal) as [Hp|(? & ? & Hs)]; discriminate.
  - rewrite Forall_forall in Hmid. specialize (Hmid _ Hin).
    destruct (Hkind _ _ Hfatal) as [Hp|(? & ? & ->)]; [|contradiction].
    destruct ev; try discriminate; contradiction.
Qed.

Lemma bad_task_kind ev e :
  bad_task ev e -> is_poll ev = true \/ exists secs x, ev = EvSleep secs x.
Proof. destruct ev; try contradiction. auto. Qed.

Lemma failed_sleep_kind ev e :
  failed_sleep ev e -> is_poll ev = true \/ exists secs x, ev = EvSleep secs x.
Proof. destruct ev; try contradiction. eauto. Qed.

Lemma getitem_present (d : dict) taskId e :
  d !! "taskId" = Some taskId -> getitem (PDict d) "taskId" = Raise e -> False.
Proof. intros Hid. cbn [getitem]. rewrite Hid. discriminate. Qed.

Lemma poll_and_execute_turn_bad_task wid f res evs :
  @poll_and_execute_turn Env WorkflowClient wid f res evs ->
  stops_at bad_task (fun e => res = Raise e) evs.
Proof.
  intros Hturn. destruct Hturn as
    [secs e|secs v tT dm e|secs v tT dm|secs v tT dm polled e Hp Hg
    |secs v tT dm d tid e Hid|secs v tT dm d tid acked Hid Hack
    |secs v tT dm d tid acked w res evs σ' Hid Hack Hrun].
  1-6: intros pre ev post e' H Hfatal; positions H; cbn [bad_task] in Hfatal;
    try contradiction; destruct Hfatal as [Hne Hget];
    try (exfalso; exact (getitem_present _ _ _ Hid Hget)); try congruence.
  - split; [reflexivity|congruence].
  - destruct (execute_run_events _ _ _ _ _ _ Hrun)
      as (r & task1 & mid & -> & Hmid & _).
    change ([EvSleep secs (Ok v); EvPoll tT wid dm (Ok (PDict d));
             EvAck tid wid (Ok acked)] ++ EvExec d r task1 :: mid)
      with ([EvSleep secs (Ok v); EvPoll tT wid dm (Ok (PDict d));
             EvAck tid wid (Ok acked)] ++ (EvExec d r task1 :: mid)).
    apply stops_at_app.
    + intros pre ev post e' H Hfatal; positions H; cbn [bad_task] in Hfatal;
        try contradiction. destruct Hfatal as [_ Hget].
      exfalso. exact (getitem_present _ _ _ Hid Hget).
    + eapply stops_at_mono; [|eapply execution_never_fatal;
                               [exact bad_task_kind|exact Hmid]].
      intros _ [].
Qed.

Lemma consume_turn_bad_task wid res evs :
  consume_turn wid res evs ->
  stops_at bad_task (fun e => res = Raise e) evs.
Proof.
  intros Hturn. destruct Hturn as
    [tT dm e|tT dm|tT dm polled e Hp Hg|tT dm d tid e Hid
    |tT dm d tid acked Hid Hack|tT dm d tid acked Hid Hack];
    intros pre ev post e' H Hfatal; positions H; cbn [bad_task] in Hfatal;
    try contradiction; destruct Hfatal as [Hne Hget];
    try (exfalso; exact (getitem_present _ _ _ Hid Hget)); try congruence.
  split; [reflexivity|congruence].
Qed.

(** X5: a task from which ['taskId'] cannot be read ends the loop: in any
    run of [poll_and_execute] or [consume], a poll that returned something
    other than None that is not a dict, or a dict without 'taskId', is
    the last event (no [ackTask], no execution) and the loop exits
    raising the TypeError or KeyError of that lookup. *)
Theorem unreadable_task_stops_the_loops
    fuel taskType f domain limit check_existing_tasks w :
  stops_at bad_task
    (fun e => fst (poll_and_execute float_of_string time_sleep fuel taskType f
                     domain w) = Exits (Raise e))
    (events_since w
       (snd (poll_and_execute float_of_string time_sleep fuel taskType f domain w)))
  /\ stops_at bad_task
       (fun e => fst (consume fuel taskType f domain limit check_existing_tasks w)
                 = Exits (Raise e))
       (events_since w
          (snd (consume fuel taskType f domain limit check_existing_tasks w))).
Proof.
  split.
  - destruct (poll_and_execute_runs fuel taskType f domain w)
      as (out & evs & σ' & -> & Hloop).
    rewrite (events_since_app w _ evs) by reflexivity. cbn [fst].
    eapply loop_run_stops_at; [|exact Hloop].
    apply poll_and_execute_turn_bad_task.
  - destruct (consume_runs fuel taskType f domain limit check_existing_tasks w)
      as (out & evs & σ' & -> & Hloop).
    rewrite (events_since_app w _ evs) by reflexivity. cbn [fst].
    eapply loop_run_stops_at; [|exact Hloop].
    apply consume_turn_bad_task.
Qed.

Ltac timed_turn_done :=
  do 3 eexists;
  (split;
   [unfold emit; cbn [wself wenv wtrace]; rewrite <- ?app_assoc; reflexivity
   |split;
    [cbn [continue_after app]; econstructor; eauto; try discriminate
    |do 2 eexists; reflexivity]]).

(** A turn of [poll_and_execute] begins by sleeping [polling_interval]
    seconds. *)
Lemma poll_and_execute_body_timed taskType f domain w :
  exists res evs σ',
    poll_and_execute_body float_of_string time_sleep taskType f domain w =
      (res, {| wself := wself w; wenv := σ'; wtrace := wtrace w ++ evs |})
    /\ @poll_and_execute_turn Env WorkflowClient (worker_id (wself w)) f
         (continue_after res) evs
    /\ exists r rest, evs = EvSleep (polling_interval (wself w)) r :: rest.
Proof.
  unfold poll_and_execute_body, bind, get_self, lift_result, extern, ret.
  cbn [py_float].
  destruct (time_sleep (polling_interval (wself w)) (wenv w)) as [[v|e] σ1].
  2:{ timed_turn_done. }
  destruct (pollForTask _ _ _ _ _) as [[polled|e] σ2].
  2:{ timed_turn_done. }
  destruct polled as [| | | | | |d]; cbn [is_None negb getitem];
    try solve [timed_turn_done].
  destruct (d !! "taskId") as [taskId|] eqn:Hid.
  2:{ timed_turn_done. cbn [getitem]. rewrite Hid. reflexivity. }
  cbn [emit wself wenv wtrace].
  destruct (ackTask _ _ _ _) as [[acked|e] σ3].
  2:{ timed_turn_done. }
  destruct (truthy acked) eqn:Hack.
  2:{ timed_turn_done. }
  match goal with |- context [execute d f ?w3] =>
    destruct (execute_runs d f w3) as (res & evs & σ' & -> & Hrun) end.
  cbn [emit wself wenv wtrace] in *.
  exists res. eexists. exists σ'. split; [|split].
  - rewrite <- !app_assoc. reflexivity.
  - cbn [app]. eapply (pae_executed _ _ _ _ _ _ _ _ _ _ _ _ _ Hid Hack Hrun).
  - do 2 eexists. reflexivity.
Qed.

Lemma poll_and_execute_runs_timed fuel taskType f domain w :
  exists out evs σ',
    poll_and_execute float_of_string time_sleep fuel taskType f domain w =
      (out, {| wself := wself w; wenv := σ'; wtrace := wtrace w ++ evs |})
    /\ loop_run
         (fun res evs =>
            @poll_and_execute_turn Env WorkflowClient (worker_id (wself w)) f res evs
            /\ exists r rest, evs = EvSleep (polling_interval (wself w)) r :: rest)
         fuel out evs.
Proof.
  revert w. induction fuel as [|fuel IH]; intros w.
  - exists StillLooping, [], (wenv w). split.
    + cbn. rewrite app_nil_r. destruct w; reflexivity.
    + constructor.
  - cbn [poll_and_execute].
    destruct (poll_and_execute_body_timed taskType f domain w)
      as (res & evs & σ1 & -> & Hturn & Hsleep).
    destruct res as [[]|e]; cbn [continue_after] in Hturn.
    + destruct (IH {| wself := wself w; wenv := σ1; wtrace := wtrace w ++ evs |})
        as (out & evs' & σ' & -> & Hloop).
      cbn [wself wtrace] in *.
      exists out, (evs ++ evs'), σ'. split.
      * rewrite app_assoc. reflexivity.
      * eapply loop_continue; [split; eassumption|exact Hloop].
    + exists (Exits (Raise e)), evs, σ1. split; [reflexivity|].
      apply loop_raise. split; assumption.
Qed.

Lemma sleeps_before_polls_app secs (a b : list event) :
  sleeps_before_polls secs a -> sleeps_before_polls secs b ->
  sleeps_before_polls secs (a ++ b).
Proof.
  intros Ha Hb pre tT wk dm r post H.
  destruct (in_app_cases _ _ _ _ _ H) as [(post' & -> & ->)|(pre' & -> & Hb')].
  - exact (Ha pre tT wk dm r post' eq_refl).
  - destruct (Hb pre' tT wk dm r post Hb') as (p & v & ->).
    exists (a ++ p), v. rewrite app_assoc. reflexivity.
Qed.

Lemma poll_and_execute_turn_sleeps wid f secs res evs :
  @poll_and_execute_turn Env WorkflowClient wid f res evs ->
  (exists r rest, evs = EvSleep secs r :: rest) ->
  sleeps_before_polls secs evs.
Proof.
  intros Hturn (r0 & rest & Hevs).
  destruct Hturn as
    [secs' e|secs' v tT dm e|secs' v tT dm|secs' v tT dm polled e Hp Hg
    |secs' v tT dm d tid e Hid|secs' v tT dm d tid acked Hid Hack
    |secs' v tT dm d tid acked w res evs σ' Hid Hack Hrun];
    cbn [app] in Hevs; injection Hevs as -> _ _.
  1-6: intros pre tT' wk dm' r post H;
    remember (EvPoll tT' wk dm' r) as ev eqn:Hev;
    positions H; try discriminate Hev; exists []; eexists; reflexivity.
  destruct (execute_run_events _ _ _ _ _ _ Hrun)
    as (rx & task1 & mid & -> & Hmid & _).
  intros pre tT' wk dm' r post H.
  remember (EvPoll tT' wk dm' r) as ev eqn:Hev.
  cbn [app] in H.
  destruct pre as [|x0 pre]; cbn [app] in H; [injection H as <- _; discriminate Hev|].
  injection H as <- H.
  destruct pre as [|x1 pre]; cbn [app] in H;
    [injection H as <- _; exists []; eexists; reflexivity|].
  injection H as <- H.
  destruct pre as [|x2 pre]; cbn [app] in H; [injection H as <- _; discriminate Hev|].
  injection H as <- H.
  destruct pre as [|x3 pre]; cbn [app] in H; [injection H as <- _; discriminate Hev|].
  injection H as <- H. subst mid.
  apply Forall_app in Hmid as [_ Hmid]. apply Forall_cons in Hmid as [Hmid _].
  subst ev. contradiction.
Qed.

Lemma poll_and_execute_turn_failed_sleep wid f res evs :
  @poll_and_execute_turn Env WorkflowClient wid f res evs ->
  stops_at failed_sleep (fun e => res = Raise e) evs.
Proof.
  intros Hturn. destruct Hturn as
    [secs e|secs v tT dm e|secs v tT dm|secs v tT dm polled e Hp Hg
    |secs v tT dm d tid e Hid|secs v tT dm d tid acked Hid Hack
    |secs v tT dm d tid acked w res evs σ' Hid Hack Hrun].
  1-6: intros pre ev post e' H Hfatal; positions H; cbn [failed_sleep] in Hfatal;
    try contradiction; subst; auto.
  destruct (execute_run_events _ _ _ _ _ _ Hrun)
    as (r & task1 & mid & -> & Hmid & _).
  change ([EvSleep secs (Ok v); EvPoll tT wid dm (Ok (PDict d));
           EvAck tid wid (Ok acked)] ++ EvExec d r task1 :: mid)
    with ([EvSleep secs (Ok v); EvPoll tT wid dm (Ok (PDict d));
           EvAck tid wid (Ok acked)] ++ (EvExec d r task1 :: mid)).
  apply stops_at_app.
  - intros pre ev post e' H Hfatal; positions H; cbn [failed_sleep] in Hfatal;
      contradiction.
  - eapply stops_at_mono; [|eapply execution_never_fatal;
                             [exact failed_sleep_kind|exact Hmid]].
    intros _ [].
Qed.

(** X6: [poll_and_execute] polls at a fixed interval: in any run, every
    poll comes right after a [time.sleep] of the worker's
    [polling_interval] that returned; and a [time.sleep] that raises is
    the last event: the loop exits raising it, without polling. *)
Theorem poll_and_execute_sleeps_before_each_poll fuel taskType f domain w :
  let run := poll_and_execute float_of_string time_sleep fuel taskType f domain w in
  sleeps_before_polls (polling_interval (wself w)) (events_since w (snd run))
  /\ stops_at failed_sleep (fun e => fst run = Exits (Raise e))
       (events_since w (snd run)).
Proof.
  cbv zeta. split.
  - destruct (poll_and_execute_runs_timed fuel taskType f domain w)
      as (out & evs & σ' & -> & Hloop).
    rewrite (events_since_app w _ evs) by reflexivity. clear σ'.
    induction Hloop as [|n e evs [Ht Hs]|n evs [Ht Hs]|n evs out evs' [Ht Hs] Hloop IH].
    + intros pre ? ? ? ? post H. destruct pre; discriminate H.
    + eapply poll_and_execute_turn_sleeps; eassumption.
    + eapply poll_and_execute_turn_sleeps; eassumption.
    + apply sleeps_before_polls_app; [|exact IH].
      eapply poll_and_execute_turn_sleeps; eassumption.
  - destruct (poll_and_execute_runs fuel taskType f domain w)
      as (out & evs & σ' & -> & Hloop).
    rewrite (events_since_app w _ evs) by reflexivity. cbn [fst].
    eapply loop_run_stops_at; [|exact Hloop].
    apply poll_and_execute_turn_failed_sleep.
Qed.

(** X7: a failure in user code does not stop the poller: when a task is
    polled and acknowledged, its execution fails (an Exception, or a
    malformed result), the failure can be printed (str of the exception
    returns and the print returns) and the FAILED report is delivered,
    [poll_and_execute] goes on with its next turn. *)
Theorem poller_survives_failed_execution
    fuel taskType f domain w v σ1 (d : dict) σ2 taskId acked σ3 r task1 σ4 u σ5 :
  let self := wself w in
  time_sleep (polling_interval self) (wenv w) = (Ok v, σ1) ->
  pollForTask (taskClient self) taskType (worker_id self) domain σ1
    = (Ok (PDict d), σ2) ->
  d !! "taskId" = Some taskId ->
  ackTask (taskClient self) taskId (worker_id self) σ2 = (Ok acked, σ3) ->
  truthy acked = true ->
  f d σ3 = (r, task1, σ4) ->
  execution_failed r ->
  printable (failure_reason r) ->
  updateTask (taskClient self) (<["status" := PStr "FAILED"]> task1) σ4
    = (Ok u, σ5) ->
  poll_and_execute float_of_string time_sleep (S fuel) taskType f domain w =
    poll_and_execute float_of_string time_sleep fuel taskType f domain
      {| wself := self; wenv := σ5;
         wtrace := wtrace w ++
           [EvSleep (polling_interval self) (Ok v);
            EvPoll taskType (worker_id self) domain (Ok (PDict d));
            EvAck taskId (worker_id self) (Ok acked);
            EvExec d r task1;
            EvPrint ("Error executing task: " +:+ message (failure_reason r));
            EvUpdate (<["status" := PStr "FAILED"]> task1) (Ok u)] |}.
Proof.
  intros self Hsleep Hpoll Hid Hack Htruthy Hf Hfail Hprint Hu. subst self.
  cbn [poll_and_execute].
  assert (Hbody :
    poll_and_execute_body float_of_string time_sleep taskType f domain w =
      (Ok tt,
       {| wself := wself w; wenv := σ5;
          wtrace := wtrace w ++
            [EvSleep (polling_interval (wself w)) (Ok v);
             EvPoll taskType (worker_id (wself w)) domain (Ok (PDict d));
             EvAck taskId (worker_id (wself w)) (Ok acked);
             EvExec d r task1;
             EvPrint ("Error executing task: " +:+ message (failure_reason r));
             EvUpdate (<["status" := PStr "FAILED"]> task1) (Ok u)] |})).
  { unfold poll_and_execute_body, bind, get_self, lift_result, extern, ret.
    cbn [py_float]. rewrite Hsleep. cbn [emit wself wenv wtrace].
    rewrite Hpoll. cbn [is_None negb getitem emit wself wenv wtrace].
    rewrite Hid. rewrite Hack. rewrite Htruthy.
    cbn [emit wself wenv wtrace].
    rewrite (execute_failed_run d f _ r task1 σ4 (Ok u) σ5); try assumption.
    cbn [discard emit wself wenv wtrace]. rewrite <- !app_assoc. reflexivity. }
  rewrite Hbody. reflexivity.
Qed.

(** *** More on [consume] *)

Lemma count_app (test : event -> bool) (a b : list event) :
  count test (a ++ b) = count test a + count test b.
Proof. unfold count. rewrite filter_app, length_app. reflexivity. Qed.

Lemma consume_turn_events wid res evs :
  consume_turn wid res evs ->
  Forall consume_event evs /\ count is_spawn evs = count is_truthy_ack evs.
Proof.
  intros Hturn. destruct Hturn as
    [tT dm e|tT dm|tT dm polled e Hp Hg|tT dm d tid e Hid
    |tT dm d tid acked Hid Hack|tT dm d tid acked Hid Hack];
    (split; [repeat constructor|]); try reflexivity.
  - unfold count. cbn. rewrite Hack. reflexivity.
  - unfold count. cbn. rewrite Hack. reflexivity.
Qed.

(** X8: the thread that runs [consume] only polls, acknowledges and
    starts threads: it never sleeps, never calls the execution function,
    never prints and never calls [updateTask]; and it starts exactly one
    thread per acknowledgment that returned a truthy value. *)
Theorem consume_only_polls_acks_and_spawns
    fuel taskType f domain limit check_existing_tasks w :
  let evs :=
    events_since w
      (snd (consume fuel taskType f domain limit check_existing_tasks w)) in
  Forall consume_event evs
  /\ count is_spawn evs = count is_truthy_ack evs.
Proof.
  cbv zeta.
  destruct (consume_runs fuel taskType f domain limit check_existing_tasks w)
    as (out & evs & σ' & -> & Hloop).
  rewrite (events_since_app w _ evs) by reflexivity. clear σ'.
  induction Hloop as [|n e evs Ht|n evs Ht|n evs out evs' Ht Hloop IH].
  - split; [constructor|reflexivity].
  - exact (consume_turn_events _ _ _ Ht).
  - exact (consume_turn_events _ _ _ Ht).
  - destruct (consume_turn_events _ _ _ Ht) as [Ha Hc]. destruct IH as [IHa IHc].
    split; [apply Forall_app; auto|].
    rewrite !count_app. congruence.
Qed.

(** X9: [limit] and [check_existing_tasks] have no effect on [consume]:
    whatever is passed, it runs the same way. *)
Theorem consume_ignores_limit_and_check_existing_tasks
    fuel taskType f domain limit1 check1 limit2 check2 w :
  consume fuel taskType f domain limit1 check1 w =
  consume fuel taskType f domain limit2 check2 w.
Proof.
  revert w. induction fuel as [|fuel IH]; intros w; [reflexivity|].
  cbn [consume].
  destruct (consume_body taskType f domain w) as [[[|]|e] w']; auto.
Qed.

End WorkerFacts.

(** *** Conversions between ints and floats *)

Section FloatFacts.
Local Open Scope Z_scope.

Lemma digits2_pos_size p : digits2_pos p = Pos.size p.
Proof. induction p; cbn; congruence. Qed.

Lemma digits2_pos_bound p : Zpos p < 2 ^ 53 -> Zpos (digits2_pos p) <= 53.
Proof.
  intros H. rewrite digits2_pos_size.
  destruct (Z.le_gt_cases (Zpos (Pos.size p)) 53) as [|Hgt]; [assumption|exfalso].
  pose proof (Pos.size_le p) as Hle.
  apply Pos2Z.pos_le_pos in Hle. rewrite Pos2Z.inj_pow in Hle.
  change (Zpos p~0) with (2 * Zpos p) in Hle.
  assert (H54 : 2 ^ 54 <= 2 ^ Zpos (Pos.size p)) by (apply Z.pow_le_mono_r; lia).
  change (2 ^ 54) with (2 * 2 ^ 53) in H54. lia.
Qed.

Lemma digits2_pos_iter m d :
  digits2_pos (Pos.iter xO m d) = (digits2_pos m + d)%positive.
Proof.
  induction d using Pos.peano_ind.
  - cbn. lia.
  - rewrite Pos.iter_succ. cbn [digits2_pos]. rewrite IHd. lia.
Qed.

Lemma iter_xO_value m d : Zpos (Pos.iter xO m d) = Zpos m * 2 ^ Zpos d.
Proof.
  induction d using Pos.peano_ind.
  - change (Zpos (Pos.iter xO m 1)) with (2 * Zpos m). change (2 ^ 1) with 2. lia.
  - rewrite Pos.iter_succ.
    rewrite Pos2Z.inj_succ, Z.pow_succ_r by lia.
    change (Zpos (Pos.iter xO m d)~0) with (2 * Zpos (Pos.iter xO m d)).
    rewrite IHd. lia.
Qed.

Lemma shiftl_iter_back m d : Z.shiftl (Zpos (Pos.iter xO m d)) (Zneg d) = Zpos m.
Proof.
  change (Zneg d) with (- Zpos d). rewrite Z.shiftl_opp_r.
  rewrite Z.shiftr_div_pow2 by lia. rewrite iter_xO_value.
  apply Z.div_mul. lia.
Qed.

(** A mantissa of 53 digits with an exponent in range is kept as it is. *)
Lemma binary_round_aux_canonical s m e :
  Zpos (digits2_pos m) = 53 -> -52 <= e <= 0 ->
  binary_round_aux prec emax s (Zpos m) e loc_Exact = S754_finite s m e.
Proof.
  intros Hd He.
  assert (Hf : fexp prec emax (Zpos (digits2_pos m) + e) = e).
  { unfold fexp, emin, prec, emax. lia. }
  unfold binary_round_aux, shr_fexp. cbn [Zdigits2 shr_record_of_loc].
  rewrite Hf, Z.sub_diag.
  cbn [shr shr_m loc_of_shr_record round_nearest_even Zdigits2 shr_record_of_loc].
  rewrite Hf, Z.sub_diag. cbn [shr shr_m].
  assert (Hle : (e <=? emax - prec) = true)
    by (apply Z.leb_le; unfold emax, prec; lia).
  rewrite Hle. reflexivity.
Qed.

Lemma binary_round_exact s m :
  Zpos m < 2 ^ 53 ->
  exists m' e',
    binary_round prec emax s m 0 = S754_finite s m' e'
    /\ Z.shiftl (Zpos m') e' = Zpos m.
Proof.
  intros Hm. pose proof (digits2_pos_bound m Hm) as Hd.
  unfold binary_round, shl_align.
  assert (Hfexp : fexp prec emax (Zpos (digits2_pos m) + 0)
                  = Zpos (digits2_pos m) - 53).
  { unfold fexp, emin, prec, emax. lia. }
  rewrite Hfexp, Z.sub_0_r.
  destruct (Zpos (digits2_pos m) - 53) as [|q|q] eqn:Hq; [|lia|].
  - exists m, 0. split; [|reflexivity].
    apply binary_round_aux_canonical; lia.
  - exists (Pos.iter xO m q), (Zneg q). split; [|apply shiftl_iter_back].
    apply binary_round_aux_canonical; [rewrite digits2_pos_iter|]; lia.
Qed.

(** An int of magnitude below 2^53 goes to a float and back unchanged. *)
Lemma float_of_int_exact (n : Z) :
  - 2 ^ 53 < n < 2 ^ 53 ->
  exists f, float_of_int n = Ok f /\ int_of_float f = Ok n.
Proof.
  intros Hn. unfold float_of_int, binary_normalize.
  destruct n as [|m|m].
  - eexists. split; reflexivity.
  - destruct (binary_round_exact false m) as (m' & e' & -> & Hback); [lia|].
    eexists. split; [reflexivity|]. cbn [int_of_float]. rewrite Hback. reflexivity.
  - destruct (binary_round_exact true m) as (m' & e' & -> & Hback); [lia|].
    eexists. split; [reflexivity|]. cbn [int_of_float]. rewrite Hback. reflexivity.
Qed.

End FloatFacts.

(** *** [start], [exc] and [main] *)

Section StartFacts.
Context {Env WorkflowClient : Type}.
Variable hostname : string.
Variable float_of_string : string -> option spec_float.
Variable WFClientMgr : pyval -> result (@WFClientMgr_obj Env WorkflowClient).
Variable time_sleep : spec_float -> Env -> result pyval * Env.
Variable str_of : pyval -> string.
Variable format_f : spec_float -> string.
Variable format_d : Z -> string.
Variable arity_message : nat -> string.
Implicit Types (p : @process Env WorkflowClient) (f : @exec_fn Env).

Lemma start_threads_log n taskType f domain p :
  start_threads n taskType f domain p =
    {| pself := pself p; penv := penv p;
       plog := plog p ++ replicate n (StThread true taskType f domain) |}.
Proof.
  revert p. induction n as [|n IH]; intros p.
  - cbn. rewrite app_nil_r. destruct p; reflexivity.
  - cbn [start_threads replicate]. rewrite IH. unfold record.
    cbn [pself penv plog]. rewrite <- app_assoc. reflexivity.
Qed.

Lemma wait_forever_runs fuel p :
  exists out sleeps σ',
    wait_forever time_sleep fuel p =
      (out, {| pself := pself p; penv := σ'; plog := plog p ++ sleeps |})
    /\ out <> Exits (Ok tt)
    /\ Forall one_second_sleep sleeps
    /\ (out = StillLooping ->
        length sleeps = fuel /\ Forall sleep_returned sleeps)
    /\ (forall e, out = Exits (Raise e) ->
          exists earlier,
            sleeps = earlier ++ [StEvent (EvSleep float_1 (Raise e))]
            /\ Forall sleep_returned earlier
            /\ length earlier < fuel)
    /\ ((forall σ, exists v σ1, time_sleep float_1 σ = (Ok v, σ1)) ->
        out = StillLooping)
    /\ (forall e σ1,
          0 < fuel ->
          time_sleep float_1 (penv p) = (Raise e, σ1) ->
          out = Exits (Raise e)
          /\ sleeps = [StEvent (EvSleep float_1 (Raise e))]
          /\ σ' = σ1).
Proof.
  revert p. induction fuel as [|fuel IH]; intros p.
  - exists StillLooping, [], (penv p). cbn. rewrite app_nil_r.
    split; [destruct p; reflexivity|]. split; [discriminate|].
    split; [constructor|]. split; [auto|]. split; [discriminate|].
    split; [reflexivity|]. intros e σ1 Hpos. lia.
  - cbn [wait_forever].
    destruct (time_sleep float_1 (penv p)) as [[v|e] σ1] eqn:Hsleep.
    + destruct (IH (record σ1 (StEvent (EvSleep float_1 (Ok v))) p))
        as (out & sleeps & σ' & -> & Hout & Hall & Hlen & Hraise & Hnever & _).
      exists out, (StEvent (EvSleep float_1 (Ok v)) :: sleeps), σ'.
      cbn [record pself penv plog]. rewrite <- app_assoc.
      split; [reflexivity|]. split; [exact Hout|]. split.
      { constructor; [eexists; reflexivity|exact Hall]. }
      split.
      { intros H. destruct (Hlen H) as [Hl Hr]. split.
        - cbn [length]. rewrite Hl. reflexivity.
        - constructor; [eexists; reflexivity|exact Hr]. }
      split.
      { intros e He. destruct (Hraise e He) as (earlier & -> & Hr & Hl).
        exists (StEvent (EvSleep float_1 (Ok v)) :: earlier).
        split; [reflexivity|]. split.
        - constructor; [eexists; reflexivity|exact Hr].
        - cbn [length]. lia. }
      split; [exact Hnever|].
      intros e σ2 _ Hno. discriminate Hno.
    + exists (Exits (Raise e)), [StEvent (EvSleep float_1 (Raise e))], σ1.
      split; [reflexivity|]. split; [discriminate|]. split.
      { constructor; [eexists; reflexivity|constructor]. }
      split; [discriminate|]. split.
      { intros e' [= <-]. exists []. split; [reflexivity|].
        split; [constructor|]. cbn [length]. lia. }
      split.
      { intros Hnever. destruct (Hnever (penv p)) as (v & σ2 & Hok).
        rewrite Hok in Hsleep. discriminate Hsleep. }
      intros e' σ2 _ [= <- <-]. auto.
Qed.

Lemma start_without_wait taskType f wait domain fuel p n :
  int_of_float (thread_count (pself p)) = Ok n ->
  truthy wait = false ->
  exists line,
    start_message str_of format_f format_d taskType (pself p) = Ok line
    /\ start time_sleep str_of format_f format_d taskType f wait domain fuel p =
         (Exits (Ok tt),
          {| pself := pself p; penv := penv p;
             plog := plog p ++
               StEvent (EvPrint line)
               :: replicate (Z.to_nat n) (StThread true taskType f domain) |}).
Proof.
  intros Hn Hwait. unfold start, start_message. rewrite Hn.
  eexists. split; [reflexivity|].
  rewrite Hwait, start_threads_log. unfold record. cbn [pself penv plog].
  rewrite <- app_assoc. reflexivity.
Qed.

(** X10: [start] prints its line and then starts [int(thread_count)]
    daemon threads on [poll_and_execute], each with the task type,
    execution function and domain it was given (none when that number is
    zero or negative); when [wait] is falsy it returns right after. *)
Theorem start_launches_the_pollers taskType f wait domain fuel p n :
  int_of_float (thread_count (pself p)) = Ok n ->
  truthy wait = false ->
  exists line,
    start_message str_of format_f format_d taskType (pself p) = Ok line
    /\ start time_sleep str_of format_f format_d taskType f wait domain fuel p =
         (Exits (Ok tt),
          {| pself := pself p; penv := penv p;
             plog := plog p ++
               StEvent (EvPrint line)
               :: replicate (Z.to_nat n) (StThread true taskType f domain) |}).
Proof. apply start_without_wait. Qed.

Lemma start_threads_env n taskType f domain p :
  penv (start_threads n taskType f domain p) = penv p.
Proof. rewrite start_threads_log. reflexivity. Qed.

Lemma start_with_wait taskType f wait domain fuel p n :
  int_of_float (thread_count (pself p)) = Ok n ->
  truthy wait = true ->
  exists out line sleeps σ',
    start time_sleep str_of format_f format_d taskType f wait domain fuel p =
      (out,
       {| pself := pself p; penv := σ';
          plog := plog p ++
            StEvent (EvPrint line)
            :: replicate (Z.to_nat n) (StThread true taskType f domain)
            ++ sleeps |})
    /\ out <> Exits (Ok tt)
    /\ Forall one_second_sleep sleeps
    /\ (out = StillLooping ->
        length sleeps = fuel /\ Forall sleep_returned sleeps)
    /\ (forall e, out = Exits (Raise e) ->
          exists earlier,
            sleeps = earlier ++ [StEvent (EvSleep float_1 (Raise e))]
            /\ Forall sleep_returned earlier
            /\ length earlier < fuel)
    /\ ((forall σ, exists v σ1, time_sleep float_1 σ = (Ok v, σ1)) ->
        out = StillLooping)
    /\ (forall e σ1,
          0 < fuel ->
          time_sleep float_1 (penv p) = (Raise e, σ1) ->
          out = Exits (Raise e)
          /\ sleeps = [StEvent (EvSleep float_1 (Raise e))]
          /\ σ' = σ1).
Proof.
  intros Hn Hwait. unfold start, start_message. rewrite Hn, Hwait.
  rewrite start_threads_log. unfold record. cbn [pself penv plog].
  match goal with |- context [wait_forever time_sleep fuel ?p2] =>
    destruct (wait_forever_runs fuel p2)
      as (out & sleeps & σ' & -> & Hout & Hall & Hlen & Hraise & Hnever & Hfirst)
  end.
  cbn [pself penv plog] in *.
  exists out. eexists. exists sleeps, σ'. split; [|auto 10].
  rewrite <- !app_assoc. reflexivity.
Qed.

(** X11: with a truthy [wait], [start] never returns: after the line and
    the threads it only calls [time.sleep(1)].  As long as the sleeps
    return it goes on, one sleep per turn it is given; it stops only
    when a sleep raises, that sleep is then the last event and [start]
    raises what the sleep raised.  If [time.sleep] never raises, [start]
    is still sleeping after any number of turns; if the first sleep
    raises, [start] raises that exception after that one sleep. *)
Theorem start_blocks_when_waiting taskType f wait domain fuel p n :
  int_of_float (thread_count (pself p)) = Ok n ->
  truthy wait = true ->
  exists out line sleeps σ',
    start time_sleep str_of format_f format_d taskType f wait domain fuel p =
      (out,
       {| pself := pself p; penv := σ';
          plog := plog p ++
            StEvent (EvPrint line)
            :: replicate (Z.to_nat n) (StThread true taskType f domain)
            ++ sleeps |})
    /\ out <> Exits (Ok tt)
    /\ Forall one_second_sleep sleeps
    /\ (out = StillLooping ->
        length sleeps = fuel /\ Forall sleep_returned sleeps)
    /\ (forall e, out = Exits (Raise e) ->
          exists earlier,
            sleeps = earlier ++ [StEvent (EvSleep float_1 (Raise e))]
            /\ Forall sleep_returned earlier
            /\ length earlier < fuel)
    /\ ((forall σ, exists v σ1, time_sleep float_1 σ = (Ok v, σ1)) ->
        out = StillLooping)
    /\ (forall e σ1,
          0 < fuel ->
          time_sleep float_1 (penv p) = (Raise e, σ1) ->
          out = Exits (Raise e)
          /\ sleeps = [StEvent (EvSleep float_1 (Raise e))]
          /\ σ' = σ1).
Proof. apply start_with_wait. Qed.

(** X12: the constructor accepts an infinite or NaN [thread_count], and
    [start] on such a worker raises before it prints or starts anything. *)
Theorem start_rejects_infinite_thread_count
    server_url (x : spec_float) polling_interval0 worker_id0 self
    taskType f wait domain fuel σ :
  x = S754_nan \/ (exists s, x = S754_infinity s) ->
  __init__ hostname float_of_string WFClientMgr server_url (PFloat x)
    polling_interval0 worker_id0 = Ok self ->
  let p := {| pself := self; penv := σ; plog := [] |} in
  exists e,
    start time_sleep str_of format_f format_d taskType f wait domain fuel p =
      (Exits (Raise e), p).
Proof.
  intros Hx Hnew p.
  assert (Htc : thread_count self = x).
  { unfold __init__ in Hnew.
    destruct (WFClientMgr server_url); [|discriminate].
    cbn [py_float] in Hnew.
    destruct (py_float float_of_string polling_interval0); [|discriminate].
    injection Hnew as <-. reflexivity. }
  unfold start, start_message. subst p. cbn [pself]. rewrite Htc.
  destruct Hx as [->|[s ->]]; eexists; reflexivity.
Qed.

(** X13: a worker constructed with an int [thread_count] of magnitude
    below 2^53 starts exactly that many pollers, and none for zero or a
    negative number. *)
Theorem int_thread_count_starts_that_many
    server_url (n : Z) polling_interval0 worker_id0 self
    taskType f wait domain fuel σ :
  (- 2 ^ 53 < n < 2 ^ 53)%Z ->
  __init__ hostname float_of_string WFClientMgr server_url (PInt n)
    polling_interval0 worker_id0 = Ok self ->
  truthy wait = false ->
  exists line,
    start time_sleep str_of format_f format_d taskType f wait domain fuel
      {| pself := self; penv := σ; plog := [] |} =
      (Exits (Ok tt),
       {| pself := self; penv := σ;
          plog := StEvent (EvPrint line)
                  :: replicate (Z.to_nat n) (StThread true taskType f domain) |}).
Proof.
  intros Hn Hnew Hwait.
  destruct (float_of_int_exact n Hn) as (x & Hx & Hback).
  assert (Htc : thread_count self = x).
  { unfold __init__ in Hnew.
    destruct (WFClientMgr server_url); [|discriminate].
    cbn [py_float] in Hnew. rewrite Hx in Hnew.
    destruct (py_float float_of_string polling_interval0); [|discriminate].
    injection Hnew as <-. reflexivity. }
  destruct (start_without_wait taskType f wait domain fuel
              {| pself := self; penv := σ; plog := [] |} n)
    as (line & _ & Hstart); [cbn [pself]; rewrite Htc; exact Hback|exact Hwait|].
  exists line. exact Hstart.
Qed.

(** X14: the placeholder [exc] never completes a task: called with its
    seven arguments it returns a dict without 'logs', which the worker
    rejects; and called as the worker calls an execution function, with
    the task alone, it raises a TypeError, so [execute] reports the task
    as FAILED. *)
Theorem exc_never_completes_a_task (task : dict) (w : @world Env WorkflowClient)
    r2 σ2 :
  updateTask (taskClient (wself w)) (<["status" := PStr "FAILED"]> task) (wenv w)
    = (r2, σ2) ->
  (forall args resp, snd (exc arity_message args) = Ok resp -> ~ well_formed resp)
  /\ execute_events task (exc_function arity_message) w =
       [EvExec task (Raise (Exception "TypeError" (arity_message 1))) task;
        EvPrint ("Error executing task: " +:+ arity_message 1);
        EvUpdate (<["status" := PStr "FAILED"]> task) r2].
Proof.
  intros Hu. split.
  - intros args resp. unfold exc.
    destruct (Nat.eqb (length args) (length exc_parameters)); [|discriminate].
    cbn [snd]. intros [= <-] (d & [= <-] & _ & _ & [x Hx]).
    vm_compute in Hx. discriminate.
  - unfold execute_events.
    rewrite (execute_failed_run task (exc_function arity_message) w
               (Raise (Exception "TypeError" (arity_message 1))) task (wenv w)
               r2 σ2);
      [|reflexivity|left; eexists; split; reflexivity
       |eexists; reflexivity|exact Hu].
    apply events_since_app. reflexivity.
Qed.

Lemma main_worker wfcMgr :
  WFClientMgr (PStr "http://localhost:8080/api") = Ok wfcMgr ->
  exists cc,
    __init__ hostname float_of_string WFClientMgr
      (PStr "http://localhost:8080/api") (PInt 5) (PFloat float_0_1) PNone = Ok cc
    /\ int_of_float (thread_count cc) = Ok 5%Z.
Proof.
  intros Hmgr. unfold __init__. rewrite Hmgr. cbn [py_float].
  rewrite float_of_int_5. eexists. split; reflexivity.
Qed.

(** X15: [main] needs two task types on the command line.  Without a
    first one it raises IndexError before starting anything; with only
    one it starts the five pollers of that task type and then raises
    IndexError; with both it starts five pollers for each, all daemon
    threads running [exc], and then never returns. *)
Theorem main_starts_ten_pollers_and_waits argv fuel σ wfcMgr :
  WFClientMgr (PStr "http://localhost:8080/api") = Ok wfcMgr ->
  let run :=
    main hostname float_of_string WFClientMgr time_sleep str_of format_f
      format_d arity_message argv fuel σ in
  let out := fst (fst run) in
  let log := snd run in
  let pollers taskType :=
    replicate 5 (StThread true taskType (exc_function arity_message) PNone) in
  match argv with
  | [] | [_] =>
      out = Exits (Raise (Exception "IndexError" "list index out of range"))
      /\ log = []
  | [_; first] =>
      out = Exits (Raise (Exception "IndexError" "list index out of range"))
      /\ exists line, log = StEvent (EvPrint line) :: pollers first
  | _ :: first :: second :: _ =>
      out <> Exits (Ok tt)
      /\ exists line1 line2 sleeps,
           log = StEvent (EvPrint line1) :: pollers first
                 ++ StEvent (EvPrint line2) :: pollers second ++ sleeps
           /\ Forall one_second_sleep sleeps
           /\ (out = StillLooping -> length sleeps = fuel)
  end.
Proof.
  intros Hmgr. cbv zeta.
  destruct (main_worker wfcMgr Hmgr) as (cc & Hcc & Hfive).
  unfold main. rewrite Hcc.
  destruct argv as [|a0 [|first [|second rest]]]; cbn [argv_item lookup list_lookup].
  - split; reflexivity.
  - split; reflexivity.
  - destruct (start_without_wait first (exc_function arity_message) (PBool false)
                PNone fuel {| pself := cc; penv := σ; plog := [] |} 5 Hfive eq_refl)
      as (line & _ & ->).
    cbn [argv_item lookup list_lookup fst snd plog penv]. split; [reflexivity|].
    exists line. reflexivity.
  - destruct (start_without_wait first (exc_function arity_message) (PBool false)
                PNone fuel {| pself := cc; penv := σ; plog := [] |} 5 Hfive eq_refl)
      as (line1 & _ & ->).
    cbn [argv_item lookup list_lookup pself penv plog app].
    match goal with |- context [start _ _ _ _ second _ _ _ fuel ?p1] =>
      destruct (start_with_wait second (exc_function arity_message) (PBool true)
                  PNone fuel p1 5 Hfive eq_refl)
        as (out & line2 & sleeps & σ' & -> & Hout & Hall & Hlen & _) end.
    cbn [fst snd pself penv plog]. split; [exact Hout|].
    exists line1, line2, sleeps. split; [|split; [exact Hall|]].
    2: { intros H. exact (proj1 (Hlen H)). }
    cbn [app]. reflexivity.
Qed.

End StartFacts.

(** ** Concrete runs of the further facts *)

Lemma execute_lets_system_exit_through_witness :
  execute_events Scenario.t1
    (Scenario.returning (Raise Scenario.keyboard_interrupt))
    (Scenario.start Scenario.quiet)
  = [EvExec Scenario.t1 (Raise Scenario.keyboard_interrupt) Scenario.t1].
Proof.
  exact (proj1 (proj2 (execute_lets_system_exit_through
           Scenario.t1 (Scenario.returning (Raise Scenario.keyboard_interrupt))
           (Scenario.start Scenario.quiet) Scenario.keyboard_interrupt
           Scenario.t1 Scenario.quiet eq_refl eq_refl))).
Defined.

Lemma execute_touches_only_three_fields_witness :
  Scenario.t1_completed !! "taskId" = Scenario.t1 !! "taskId".
Proof.
  refine (proj1 (execute_touches_only_three_fields
            Scenario.t1 (Scenario.returning (Ok (PDict Scenario.completed)))
            (Scenario.start Scenario.quiet) (Ok (PDict Scenario.completed))
            Scenario.t1 Scenario.quiet Scenario.t1_completed (Ok PNone) eq_refl _)
          "taskId" _ _ _); try discriminate.
  apply list_elem_of_lookup. exists 1. vm_compute. reflexivity.
Defined.

Lemma execute_raises_only_from_update_or_exit_witness :
  let evs :=
    execute_events Scenario.t1
      (Scenario.returning (Ok (PDict Scenario.only_output)))
      (Scenario.start Scenario.update_fails_once) in
  (exists pre t, evs = pre ++ [EvUpdate t (Raise Scenario.boom)])
  \/ (exists err,
        str_exn err = Raise Scenario.boom /\ is_Exception err = true
        /\ exists t,
             evs = [EvExec Scenario.t1 (Ok (PDict Scenario.only_output))
                      Scenario.t1;
                    EvUpdate t (Raise err)])
  \/ (exists pre line, evs = pre ++ [EvPrintRaises line Scenario.boom]).
Proof.
  destruct (execute_raises_only_from_update_or_exit
              Scenario.t1 (Scenario.returning (Ok (PDict Scenario.only_output)))
              (Scenario.start Scenario.update_fails_once)
              (Ok (PDict Scenario.only_output)) Scenario.t1
              Scenario.update_fails_once Scenario.boom eq_refl eq_refl)
    as [[H _]|[H|[(err & Hs & He & [[H _]|H])|H]]].
  - discriminate H.
  - left. exact H.
  - discriminate H.
  - right. left. exists err. auto.
  - right. right. exact H.
Defined.

Lemma poller_survives_failed_execution_witness :
  poll_and_execute Scenario.no_float_literal Scenario.sleep_ok 2 (PStr "T")
    (Scenario.returning (Ok (PDict Scenario.only_output))) PNone
    (Scenario.start Scenario.one_task)
  = poll_and_execute Scenario.no_float_literal Scenario.sleep_ok 1 (PStr "T")
      (Scenario.returning (Ok (PDict Scenario.only_output))) PNone
      {| wself := Scenario.self0; wenv := Scenario.quiet;
         wtrace :=
           [EvSleep (polling_interval Scenario.self0) (Ok PNone);
            EvPoll (PStr "T") (PStr Scenario.host) PNone (Ok (PDict Scenario.t1));
            EvAck (PStr "t1") (PStr Scenario.host) (Ok (PBool true));
            EvExec Scenario.t1 (Ok (PDict Scenario.only_output)) Scenario.t1;
            EvPrint "Error executing task: Task execution function MUST return a response as a dict with status, output and logs fields";
            EvUpdate Scenario.t1_failed (Ok PNone)] |}.
Proof.
  refine (poller_survives_failed_execution
            Scenario.no_float_literal Scenario.sleep_ok 1 (PStr "T")
            (Scenario.returning (Ok (PDict Scenario.only_output))) PNone
            (Scenario.start Scenario.one_task)
            PNone Scenario.one_task Scenario.t1 Scenario.quiet (PStr "t1")
            (PBool true) Scenario.quiet (Ok (PDict Scenario.only_output))
            Scenario.t1 Scenario.quiet PNone Scenario.quiet
            eq_refl eq_refl eq_refl eq_refl eq_refl eq_refl _ _ eq_refl).
  - right. exists (PDict Scenario.only_output). split; [reflexivity|].
    intros (d & Hd & [x Hx] & _). injection Hd as <-. vm_compute in Hx.
    discriminate.
  - eexists. reflexivity.
Defined.

Lemma start_launches_the_pollers_witness :
  exists line,
    start Scenario.sleep_ok Scenario.show Scenario.show_f Scenario.show_d
      (PStr "T") (Scenario.returning (Ok (PDict Scenario.completed)))
      (PBool false) PNone 3 (Scenario.host_process Scenario.main_self)
    = (Exits (Ok tt),
       {| pself := Scenario.main_self; penv := Scenario.quiet;
          plog := StEvent (EvPrint line)
                  :: replicate 5
                       (StThread true (PStr "T")
                          (Scenario.returning (Ok (PDict Scenario.completed)))
                          PNone) |}).
Proof.
  destruct (start_launches_the_pollers Scenario.sleep_ok Scenario.show
              Scenario.show_f Scenario.show_d (PStr "T")
              (Scenario.returning (Ok (PDict Scenario.completed))) (PBool false)
              PNone 3 (Scenario.host_process Scenario.main_self) 5 eq_refl eq_refl)
    as (line & _ & H).
  exists line. exact H.
Defined.

Lemma start_blocks_when_waiting_witness :
  fst (start Scenario.sleep_ok Scenario.show Scenario.show_f Scenario.show_d
         (PStr "T") (Scenario.returning (Ok (PDict Scenario.completed)))
         (PBool true) PNone 3 (Scenario.host_process Scenario.main_self))
  = StillLooping.
Proof.
  destruct (start_blocks_when_waiting Scenario.sleep_ok Scenario.show
              Scenario.show_f Scenario.show_d (PStr "T")
              (Scenario.returning (Ok (PDict Scenario.completed))) (PBool true)
              PNone 3 (Scenario.host_process Scenario.main_self) 5 eq_refl eq_refl)
    as (out & line & sleeps & σ' & -> & _ & _ & _ & _ & Hnever & _).
  apply Hnever. intros σ. exists PNone, σ. reflexivity.
Defined.

Lemma start_rejects_infinite_thread_count_witness :
  exists e,
    start Scenario.sleep_ok Scenario.show Scenario.show_f Scenario.show_d
      (PStr "T") (Scenario.returning (Ok (PDict Scenario.completed)))
      (PBool false) PNone 3
      {| pself :=
           {| workflowClient := tt; taskClient := Scenario.client;
              thread_count := S754_infinity false;
              polling_interval := float_1;
              worker_id := PStr Scenario.host |};
         penv := Scenario.quiet; plog := [] |}
    = (Exits (Raise e),
       {| pself :=
            {| workflowClient := tt; taskClient := Scenario.client;
               thread_count := S754_infinity false;
               polling_interval := float_1;
               worker_id := PStr Scenario.host |};
          penv := Scenario.quiet; plog := [] |}).
Proof.
  refine (start_rejects_infinite_thread_count
            Scenario.host Scenario.no_float_literal Scenario.mgr Scenario.sleep_ok
            Scenario.show Scenario.show_f Scenario.show_d
            Scenario.url (S754_infinity false) (PInt 1) PNone _
            (PStr "T") (Scenario.returning (Ok (PDict Scenario.completed)))
            (PBool false) PNone 3 Scenario.quiet _ eq_refl).
  right. exists false. reflexivity.
Defined.

Lemma int_thread_count_starts_that_many_witness :
  exists line self,
    __init__ Scenario.host Scenario.no_float_literal Scenario.mgr Scenario.url
      (PInt 3) (PInt 1) PNone = Ok self
    /\ start Scenario.sleep_ok Scenario.show Scenario.show_f Scenario.show_d
         (PStr "T") (Scenario.returning (Ok (PDict Scenario.completed)))
         (PBool false) PNone 0
         {| pself := self; penv := Scenario.quiet; plog := [] |}
       = (Exits (Ok tt),
          {| pself := self; penv := Scenario.quiet;
             plog := StEvent (EvPrint line)
                     :: replicate 3
                          (StThread true (PStr "T")
                             (Scenario.returning (Ok (PDict Scenario.completed)))
                             PNone) |}).
Proof.
  destruct (int_thread_count_starts_that_many
              Scenario.host Scenario.no_float_literal Scenario.mgr Scenario.sleep_ok
              Scenario.show Scenario.show_f Scenario.show_d
              Scenario.url 3 (PInt 1) PNone _
              (PStr "T") (Scenario.returning (Ok (PDict Scenario.completed)))
              (PBool false) PNone 0 Scenario.quiet
              ltac:(lia) eq_refl eq_refl)
    as (line & H).
  exists line. eexists. split; [reflexivity|exact H].
Defined.

Lemma exc_never_completes_a_task_witness :
  execute_events Scenario.t1 (exc_function Scenario.arity)
    (Scenario.start Scenario.quiet)
  = [EvExec Scenario.t1 (Raise (Exception "TypeError" (Scenario.arity 1)))
       Scenario.t1;
     EvPrint ("Error executing task: " +:+ Scenario.arity 1);
     EvUpdate Scenario.t1_failed (Ok PNone)].
Proof.
  exact (proj2 (exc_never_completes_a_task Scenario.arity Scenario.t1
                  (Scenario.start Scenario.quiet) (Ok PNone) Scenario.quiet
                  eq_refl)).
Defined.

Lemma execute_unprintable_failure_is_not_reported_witness :
  update_calls
    (execute_events Scenario.t1 (Scenario.returning (Raise Scenario.unprintable))
       (Scenario.start Scenario.quiet)) = 0.
Proof.
  refine (proj1 (execute_unprintable_failure_is_not_reported
            Scenario.t1 (Scenario.returning (Raise Scenario.unprintable))
            (Scenario.start Scenario.quiet) Scenario.unprintable Scenario.t1
            Scenario.quiet eq_refl eq_refl _)).
  intros [msg Hmsg]. discriminate Hmsg.
Defined.

Lemma main_starts_ten_pollers_and_waits_witness :
  fst (fst (main Scenario.host Scenario.no_float_literal Scenario.mgr
              Scenario.sleep_ok Scenario.show Scenario.show_f Scenario.show_d
              Scenario.arity [PStr "worker.py"; PStr "A"; PStr "B"] 2
              Scenario.quiet))
  <> Exits (Ok tt).
Proof.
  exact (proj1 (main_starts_ten_pollers_and_waits
                  Scenario.host Scenario.no_float_literal Scenario.mgr
                  Scenario.sleep_ok Scenario.show Scenario.show_f Scenario.show_d
                  Scenario.arity [PStr "worker.py"; PStr "A"; PStr "B"] 2
                  Scenario.quiet _ eq_refl)).
Defined.

(** The run of [main] with two task types, in full. *)
Example main_with_two_task_types :
  threads_started
    (snd (main Scenario.host Scenario.no_float_literal Scenario.mgr
            Scenario.sleep_ok Scenario.show Scenario.show_f Scenario.show_d
            Scenario.arity [PStr "worker.py"; PStr "A"; PStr "B"] 2
            Scenario.quiet))
  = 10.
Proof. reflexivity. Qed.

(** ** Concrete runs *)

Import Scenario.

(** The trace predicates tell runs apart: an execution that no
    acknowledgment precedes is not [acked_first]. *)
Example acked_first_rejects_unacked :
  ~ acked_first (PStr host) [EvExec t1 (Ok PNone) t1].
Proof.
  intros H. specialize (H [] _ [] eq_refl).
  destruct H as (pre & ? & ? & ? & ? & Hpre & _).
  destruct pre; discriminate Hpre.
Qed.

(** Nor does [failures_propagate] accept a run in which an Exception of
    the first [updateTask] is neither reported again nor raised. *)
Example failures_propagate_rejects_lost_failure (raised : exn -> Prop) :
  ~ failures_propagate raised
      [EvExec t1 (Ok (PDict completed)) t1; EvUpdate t1_completed (Raise boom)].
Proof.
  intros H.
  specialize (H [EvExec t1 (Ok (PDict completed)) t1] _ [] eq_refl).
  destruct H as [Hcaught _].
  destruct (Hcaught I eq_refl (ex_intro _ "boom" eq_refl)) as (r2 & post & Hpost).
  discriminate Hpost.
Qed.

Lemma execute_copies_result_then_updates_witness :
  exists rest,
    execute_events t1 (returning (Ok (PDict completed))) (start quiet) =
      EvExec t1 (Ok (PDict completed)) t1 :: EvUpdate t1_completed (Ok PNone) :: rest.
Proof.
  destruct (execute_copies_result_then_updates
              t1 (returning (Ok (PDict completed))) (start quiet) completed t1 quiet
              (PStr "COMPLETED") (PDict {[ "x" := PInt 1 ]}) (PList [])
              (Ok PNone) quiet eq_refl eq_refl eq_refl eq_refl eq_refl)
    as (_ & rest & Hev & _).
  exists rest. exact Hev.
Defined.

Lemma execute_failure_reports_FAILED_witness :
  execute_events t1 (returning (Ok (PDict only_output))) (start quiet) =
    [EvExec t1 (Ok (PDict only_output)) t1;
     EvPrint "Error executing task: Task execution function MUST return a response as a dict with status, output and logs fields";
     EvUpdate t1_failed (Ok PNone)].
Proof.
  refine (proj1 (execute_failure_reports_FAILED
            t1 (returning (Ok (PDict only_output))) (start quiet)
            (Ok (PDict only_output)) t1 quiet (Ok PNone) quiet eq_refl _ eq_refl)).
  right. exists (PDict only_output). split; [reflexivity|].
  intros (d & Hd & [x Hx] & _). injection Hd as <-. vm_compute in Hx. discriminate.
Defined.

(** C2 as stated fails: the execution function raises KeyboardInterrupt,
    which is not an Exception; the except clause does not run, nothing
    is printed, [updateTask] is not called and [execute] raises. *)
Lemma execute_failure_reports_FAILED_counterexample :
  let run := execute t1 (returning (Raise keyboard_interrupt)) (start quiet) in
  fst run = Raise keyboard_interrupt
  /\ wtrace (snd run) = [EvExec t1 (Raise keyboard_interrupt) t1]
  /\ update_calls (wtrace (snd run)) = 0.
Proof. repeat split. Qed.

Lemma execute_update_failure_is_reported_again_witness :
  execute_events t1 (returning (Ok (PDict completed))) (start update_fails_once) =
    [EvExec t1 (Ok (PDict completed)) t1;
     EvUpdate t1_completed (Raise boom);
     EvPrint "Error executing task: boom";
     EvUpdate (<["status" := PStr "FAILED"]> t1_completed) (Ok PNone)]
  /\ fst (execute t1 (returning (Ok (PDict completed))) (start update_fails_once))
     = Ok tt.
Proof.
  destruct (execute_update_failure_is_reported_again
              t1 (returning (Ok (PDict completed))) (start update_fails_once)
              completed t1 update_fails_once
              (PStr "COMPLETED") (PDict {[ "x" := PInt 1 ]}) (PList [])
              boom quiet (Ok PNone) quiet
              eq_refl eq_refl eq_refl eq_refl eq_refl eq_refl
              (ex_intro _ "boom" eq_refl) eq_refl)
    as (Hev & _ & Hres).
  split; [exact Hev|exact Hres].
Defined.

(** C9 as stated fails: the result is well formed and the first
    [updateTask] raises KeyboardInterrupt, which is not an Exception;
    [execute] does not catch it, does not set 'FAILED', does not call
    [updateTask] again, and raises it. *)
Lemma execute_update_failure_is_reported_again_counterexample :
  let run := execute t1 (returning (Ok (PDict completed))) (start update_interrupted) in
  fst run = Raise keyboard_interrupt
  /\ wtrace (snd run) =
       [EvExec t1 (Ok (PDict completed)) t1;
        EvUpdate t1_completed (Raise keyboard_interrupt)]
  /\ update_calls (wtrace (snd run)) = 1.
Proof. repeat split. Qed.



Lemma reported_status_is_FAILED_or_copied_witness :
  is_Some (t1_completed !! "status").
Proof.
  refine (proj1 (reported_status_is_FAILED_or_copied
            t1 (returning (Ok (PDict completed))) (start quiet)
            (Ok (PDict completed)) t1 quiet t1_completed (Ok PNone) eq_refl _)).
  apply list_elem_of_lookup. exists 1. vm_compute. reflexivity.
Defined.

(** C6 as stated fails: the execution function reports 'IN_PROGRESS' and
    that is the status [updateTask] receives. *)
Lemma reported_status_in_closed_set_counterexample :
  exists t r,
    EvUpdate t r ∈
      execute_events t1 (returning (Ok (PDict in_progress))) (start quiet)
    /\ t !! "status" = Some (PStr "IN_PROGRESS")
    /\ t !! "status" <> Some (PStr "COMPLETED")
    /\ t !! "status" <> Some (PStr "FAILED").
Proof.
  eexists _, _. split.
  - apply list_elem_of_lookup. exists 1. vm_compute. reflexivity.
  - vm_compute. repeat split; discriminate.
Qed.

Lemma consume_returns_at_first_empty_poll_witness :
  let run :=
    consume 3 (PStr "T") (returning (Ok (PDict completed))) PNone (PInt 0)
      (PBool true) (start quiet) in
  fst run = Exits (Ok tt)
  /\ events_since (start quiet) (snd run)
     = [EvPoll (PStr "T") (PStr host) PNone (Ok PNone)].
Proof.
  intros run.
  destruct (consume_returns_at_first_empty_poll
              3 (PStr "T") (returning (Ok (PDict completed))) PNone (PInt 0)
              (PBool true) (start quiet) (fst run) (snd run) eq_refl)
    as (_ & _ & H).
  exact (H quiet ltac:(lia) eq_refl).
Defined.


Lemma init_coerces_or_fails_witness :
  exists self,
    __init__ host no_float_literal mgr url (PInt 5) (PFloat tenth) PNone = Ok self
    /\ thread_count self = S754_finite false 5629499534213120 (-50)
    /\ polling_interval self = tenth.
Proof.
  destruct (init_coerces_or_fails no_float_literal sleep_ok host mgr
              url (PInt 5) (PFloat tenth) PNone _ eq_refl)
    as (_ & Hok).
  destruct Hok as (self & Hnew & Htc & Hpi & _).
  - vm_compute. intros [].
  - exact I.
  - exists self. split; [exact Hnew|].
    split; [injection Htc as <-|injection Hpi as <-]; reflexivity.
Defined.

Lemma init_worker_id_witness :
  exists self,
    __init__ host no_float_literal mgr url (PInt 5) (PFloat tenth) PNone = Ok self
    /\ worker_id self = PStr host.
Proof.
  eexists. split; [reflexivity|].
  refine (proj1 (init_worker_id no_float_literal host mgr
                   url (PInt 5) (PFloat tenth) PNone _ eq_refl) eq_refl).
Defined.
